(** * Polar H10 protocol client: parameter codec, frame decoders,
      timestamp reconstruction, control-point responses and the
      notification lifecycle.

    A shallow embedding of [polar_h10/core/utils.py] and
    [polar_h10/core/polar_h10.py].  Python integers are [Z], a [bytes]
    object is a list of integers in [0, 256), Python exceptions are values
    of [exn] carried by [result], and the insertion-ordered dictionaries
    that the codec iterates over are association lists. *)

From stdpp Require Import base tactics option list strings pretty gmap.
From Stdlib Require Import ZArith Lia.

Local Open Scope string_scope.
Local Open Scope list_scope.
Local Open Scope Z_scope.

(** ** Python exceptions and results *)

Inductive exn : Type :=
  | ValueError (msg : string)
  | KeyError
  | IndexError
  | TypeError
  | AttributeError
  | OverflowError
  | ZeroDivisionError
  | UnboundLocalError
  | TransportError
  | PolarH10Error (msg : string).

Inductive result (A : Type) : Type :=
  | Ok (a : A)
  | Raise (e : exn).
Arguments Ok {A} a.
Arguments Raise {A} e.

(** Sequencing: an exception raised by the first statement skips the
    rest.  With these instances [x ← r; k] is stdpp's bind notation. *)
Global Instance result_bind : MBind result := λ A B k r,
  match r with
  | Ok a => k a
  | Raise e => Raise e
  end.

Global Instance result_ret : MRet result := λ A a, Ok a.

(** ** Bytes *)

Abbreviation bytes := (list Z).

(** [data[i]] *)
Definition index (data : bytes) (i : nat) : result Z :=
  match data !! i with
  | Some b => Ok b
  | None => Raise IndexError
  end.

(** [data[a:b]]; a slice never raises, it is cut at the end of [data]. *)
Definition slice (data : bytes) (a b : nat) : bytes :=
  take (b - a) (drop a data).

(** [int.from_bytes(bs, "little")] *)
Fixpoint int_from_bytes (bs : bytes) : Z :=
  match bs with
  | [] => 0
  | b :: r => b + 256 * int_from_bytes r
  end.

(** [int.from_bytes(bs, "little", signed=True)] *)
Definition int_from_bytes_signed (bs : bytes) : Z :=
  let u := int_from_bytes bs in
  let w := 256 ^ Z.of_nat (length bs) in
  if decide (bs ≠ [] ∧ w ≤ 2 * u) then u - w else u.

Fixpoint le_bytes (n : nat) (x : Z) : bytes :=
  match n with
  | O => []
  | S k => x `mod` 256 :: le_bytes k (x `div` 256)
  end.

(** [x.to_bytes(n, "little")]: a negative [x] or one that needs more than
    [n] bytes raises [OverflowError]. *)
Definition int_to_bytes (x : Z) (n : nat) : result bytes :=
  if decide (0 ≤ x < 256 ^ Z.of_nat n) then Ok (le_bytes n x)
  else Raise OverflowError.

(** [iter_batched(iterable, n, strict)] consumed to the end by a [for]
    loop; [fuel] bounds the number of batches ([length data] is enough, a
    batch has at least one element). *)
Fixpoint batches (fuel : nat) (data : bytes) (n : nat) (strict : bool)
  : result (list bytes) :=
  match fuel with
  | O => Ok []
  | S fuel' =>
      match data with
      | [] => Ok []
      | _ =>
          let batch := take n data in
          if strict && negb (length batch =? n)%nat
          then Raise (ValueError "batched(): incomplete batch")
          else rest ← batches fuel' (drop n data) n strict ;
               Ok (batch :: rest)
      end
  end.

Definition iter_batched (data : bytes) (n : Z) (strict : bool)
  : result (list bytes) :=
  if decide (n < 1) then Raise (ValueError "n must be at least one")
  else batches (length data) data (Z.to_nat n) strict.

(** ** The enumerations of [enums.py] *)

(** Modelled from the spec: [polar_h10/core/enums.py] is not among the
    sources.  The members of [PMDSetting] are the setting ids that the spec
    lists, among them the three that [get_setting_size] names; a member is
    looked up by its name ([PMDSetting[name]], [.name]) as the tests do
    with ["SAMPLE_RATE"], ["RESOLUTION"] and ["RANGE"]. *)
Inductive PMDSetting : Type :=
  | SAMPLE_RATE | RESOLUTION | RANGE | RANGE_MILLIUNIT | CHANNELS | FACTOR.

Global Instance PMDSetting_eq_dec : EqDecision PMDSetting.
Proof. solve_decision. Defined.

Definition PMDSetting_members : list PMDSetting :=
  [SAMPLE_RATE; RESOLUTION; RANGE; RANGE_MILLIUNIT; CHANNELS; FACTOR].

Definition PMDSetting_name (s : PMDSetting) : string :=
  match s with
  | SAMPLE_RATE => "SAMPLE_RATE"
  | RESOLUTION => "RESOLUTION"
  | RANGE => "RANGE"
  | RANGE_MILLIUNIT => "RANGE_MILLIUNIT"
  | CHANNELS => "CHANNELS"
  | FACTOR => "FACTOR"
  end.

(** Modelled from the spec: the members of [PMDCommand] in [enums.py],
    the three commands of a control-point request. *)
Inductive PMDCommand : Type :=
  | GET_MEASUREMENT_SETTINGS | START_MEASUREMENT | STOP_MEASUREMENT.

Global Instance PMDCommand_eq_dec : EqDecision PMDCommand.
Proof. solve_decision. Defined.

(** Modelled from the spec: the values in [enums.py].  The spec gives no
    wire value, so they are the fields of this class, together with what
    any Python [Enum] without aliases guarantees (a member is found again
    from its value) and what the callers rely on (a setting id is one
    byte).  [PMDMeasurement] and [PMDStatus] are represented by their wire
    values: [NotificationType.ECG = 0] and [ACC = 2] are converted to
    [PMDMeasurement] and back by value, so these two values are members and
    stand for [PMDMeasurement.ECG] and [PMDMeasurement.ACC]. *)
Class Enums : Type := {
  PMDSetting_value : PMDSetting → Z;
  PMDSetting_value_byte : ∀ s, 0 ≤ PMDSetting_value s < 256;
  PMDSetting_value_inj : ∀ s t, PMDSetting_value s = PMDSetting_value t → s = t;
  PMDCommand_value : PMDCommand → Z;
  PMDMeasurement_member : Z → bool;
  PMDMeasurement_ECG : PMDMeasurement_member 0 = true;
  PMDMeasurement_ACC : PMDMeasurement_member 2 = true;
  PMDStatus_member : Z → bool;
  PMDStatus_name : Z → string;
  PMDStatus_SUCCESS : Z;
  PMDStatus_ERROR_INVALID_STATE : Z;
  PMDStatus_SUCCESS_member : PMDStatus_member PMDStatus_SUCCESS = true;
  PMDStatus_ERROR_member : PMDStatus_member PMDStatus_ERROR_INVALID_STATE = true;
  PMDStatus_distinct : PMDStatus_SUCCESS ≠ PMDStatus_ERROR_INVALID_STATE;
}.

(** ** Values and dictionaries of the parameter codec *)

(** A setting value: [int] or [list] of [int]. *)
Inductive pyval : Type :=
  | VInt (x : Z)
  | VList (xs : list Z).

Global Instance pyval_eq_dec : EqDecision pyval.
Proof. solve_decision. Defined.

(** A [dict] from setting names to values, in insertion order. *)
Abbreviation pydict := (list (string * pyval)).

Fixpoint dict_get (k : string) (d : pydict) : option pyval :=
  match d with
  | [] => None
  | (k', v) :: r => if decide (k' = k) then Some v else dict_get k r
  end.

(** [d[k] = v]: an existing key keeps its place, a new one goes last. *)
Fixpoint dict_set (k : string) (v : pyval) (d : pydict) : pydict :=
  match d with
  | [] => [(k, v)]
  | (k', v') :: r =>
      if decide (k' = k) then (k', v) :: r else (k', v') :: dict_set k v r
  end.

(** The argument of [get_setting_size].  [deserialize_pmd_parameters]
    passes the enum member, [serialize_pmd_parameters] passes the dictionary
    key, a [str]. *)
Inductive setting_arg : Type :=
  | ByName (name : string)
  | ByMember (s : PMDSetting).

(** [get_setting_size]: a [dict] keyed by three members of [PMDSetting],
    looked up with [.get(setting, 2)].  A [str] is equal to no member of an
    [Enum] with integer values, so the lookup of a name gives the
    default. *)
Definition get_setting_size (setting : setting_arg) : nat :=
  match setting with
  | ByMember CHANNELS => 1
  | ByMember FACTOR => 4
  | ByMember RANGE_MILLIUNIT => 8
  | _ => 2
  end.

Section Codec.
Context {E : Enums}.

(** [PMDSetting[name]] *)
Definition PMDSetting_getitem (name : string) : result PMDSetting :=
  match list_find (λ s, PMDSetting_name s = name) PMDSetting_members with
  | Some (_, s) => Ok s
  | None => Raise KeyError
  end.

(** [PMDSetting(b)] *)
Definition PMDSetting_call (b : Z) : result PMDSetting :=
  match list_find (λ s, PMDSetting_value s = b) PMDSetting_members with
  | Some (_, s) => Ok s
  | None => Raise (ValueError "is not a valid PMDSetting")
  end.

(** The loop [for x in value: data += x.to_bytes(size, "little")]. *)
Fixpoint serialize_values (size : nat) (value : list Z) (data : bytes)
  : result bytes :=
  match value with
  | [] => Ok data
  | x :: rest =>
      b ← int_to_bytes x size ;
      serialize_values size rest (data ++ b)
  end.

(** The loop over [parameters.items()], [data] being the [bytearray]. *)
Fixpoint serialize_items (items : pydict) (data : bytes) : result bytes :=
  match items with
  | [] => Ok data
  | (setting, value) :: rest =>
      m ← PMDSetting_getitem setting ;
      id ← int_to_bytes (PMDSetting_value m) 1 ;
      let data := data ++ id in
      data ← match value with
             | VList xs =>
                 c ← int_to_bytes (Z.of_nat (length xs)) 1 ;
                 serialize_values (get_setting_size (ByName setting)) xs
                   (data ++ c)
             | VInt x =>
                 b ← int_to_bytes x (get_setting_size (ByName setting)) ;
                 Ok ((data ++ [1]) ++ b)
             end ;
      serialize_items rest data
  end.

Definition serialize_pmd_parameters (parameters : pydict) : result bytes :=
  serialize_items parameters [].

(** The loop [for _ in range(count)] of the decoder, with its [break];
    returns the list built and the offset reached. *)
Fixpoint read_values (count : nat) (data : bytes) (offset value_size : nat)
    (value : list Z) : list Z * nat :=
  match count with
  | O => (value, offset)
  | S c =>
      if decide (length data < offset + value_size)%nat then (value, offset)
      else
        let tmp := int_from_bytes (slice data offset (offset + value_size)) in
        read_values c data (offset + value_size) value_size (value ++ [tmp])
  end.

(** One turn of the [while] loop: the entry that starts at [offset] is
    read into [params]; returns the offset after it. *)
Definition deserialize_entry (data : bytes) (offset : nat) (params : pydict)
  : result (nat * pydict) :=
  b ← index data offset;
  setting_type ← PMDSetting_call b;
  let offset := (offset + 1)%nat in
  count ← index data offset;
  let offset := (offset + 1)%nat in
  let value_size := get_setting_size (ByMember setting_type) in
  if decide (count = 1) then
    let value := int_from_bytes (slice data offset (offset + value_size)) in
    Ok ((offset + value_size)%nat,
        dict_set (PMDSetting_name setting_type) (VInt value) params)
  else
    let '(value, offset) :=
      read_values (Z.to_nat count) data offset value_size [] in
    Ok (offset, dict_set (PMDSetting_name setting_type) (VList value) params).

(** The [while offset + 2 < len(data)] loop.  Every turn moves [offset]
    forward by at least 2, so [length data] turns are never used up
    (lemma [deserialize_loop_fuel]). *)
Fixpoint deserialize_loop (fuel : nat) (data : bytes) (offset : nat)
    (params : pydict) : result pydict :=
  match fuel with
  | O => Ok params
  | S fuel' =>
      if decide (offset + 2 < length data)%nat then
        '(offset, params) ← deserialize_entry data offset params;
        deserialize_loop fuel' data offset params
      else Ok params
  end.

Definition deserialize_pmd_parameters (data : bytes) : result pydict :=
  deserialize_loop (length data) data 0 [].

(** Encoding and decoding again. *)
Definition round_trip (parameters : pydict) : result pydict :=
  data ← serialize_pmd_parameters parameters;
  deserialize_pmd_parameters data.

(** The offsets, and the dictionaries built so far, at which the loop of
    the decoder starts an entry of [data]. *)
Inductive entry_start (data : bytes) : nat → pydict → Prop :=
  | entry_start_first : entry_start data 0 []
  | entry_start_next offset params offset' params' :
      entry_start data offset params →
      (offset + 2 < length data)%nat →
      deserialize_entry data offset params = Ok (offset', params') →
      entry_start data offset' params'.

End Codec.

(** ** Timestamp reconstruction *)

(** Python converts an [int] to a [float] with rounding to nearest; the
    conversion, and the true division [a / b] of two integers, raise
    [OverflowError] when the rounded result would be [2 ^ 1024] or more,
    that is from this magnitude on. *)
Definition float_limit : Z := 2 ^ 1024 - 2 ^ 970.

(** [int(1e9 // sample_rate)] for a positive integer [sample_rate]: the
    float floor division is exact for a divisor up to [2 ^ 53] and gives
    [0.0] beyond, which is the integer quotient in both cases. *)
Definition ideal_delta (sample_rate : Z) : result Z :=
  if decide (float_limit ≤ sample_rate) then Raise OverflowError
  else Ok (10 ^ 9 `div` sample_rate).

(** [abs(a / b) > 0.1] for integers [a] and [0 ≤ b ≤ 10 ^ 9].  The
    quotient is rounded to the nearest double and compared with the double
    [0.1]; as [b ≤ 10 ^ 9], a quotient above one tenth is above it by
    [10 ^ -10] at least, so the comparison of doubles decides
    [10 * |a| > b] exactly. *)
Definition deviates (a b : Z) : result bool :=
  if decide (b = 0) then Raise ZeroDivisionError
  else if decide (float_limit * b ≤ Z.abs a) then Raise OverflowError
  else Ok (bool_decide (b < 10 * Z.abs a)).

(** [range(n)] *)
Definition range (n : Z) : list Z := Z.of_nat <$> seq 0 (Z.to_nat n).

Definition get_timestamps_list
    (n_samples sample_rate timestamp p_timestamp delta : Z) : result (list Z) :=
  if decide (n_samples ≤ 0) then
    Raise (ValueError "Number of samples must be grater than zero")
  else if decide (sample_rate ≤ 0) then
    Raise (ValueError "Sample rate must be grater than zero")
  else if decide (timestamp < p_timestamp) then
    Raise (ValueError "Current timestamp must be grater than previous")
  else
    timestamp_delta ← ideal_delta sample_rate;
    let calculate_timestamp_delta := (timestamp - p_timestamp) `div` n_samples in
    lost ← deviates (calculate_timestamp_delta - timestamp_delta) timestamp_delta;
    let '(p_timestamp, timestamp_delta) :=
      if lost : bool
      then (timestamp - n_samples * timestamp_delta, timestamp_delta)
      else (p_timestamp, calculate_timestamp_delta) in
    let p_timestamp := p_timestamp + timestamp_delta in
    Ok ((λ i, p_timestamp + i * timestamp_delta + delta) <$> range n_samples).

(** ** Frame decoders *)

(** The decoded fields of a PMD frame: the dictionary [{"lead_1": ...}]
    or [{"x": ..., "y": ..., "z": ...}]. *)
Inductive samples : Type :=
  | EcgSamples (lead_1 : list Z)
  | AccSamples (x y z : list Z).

Definition process_ecg_samples (frame_type : Z) (data : bytes)
  : result (Z * samples) :=
  if decide (frame_type ≠ 0) then Raise (ValueError "Unsupported ecg frame type")
  else
    batched ← iter_batched data 3 true;
    Ok (Z.of_nat (length batched),
        EcgSamples (int_from_bytes_signed <$> (batched : list bytes))).

Inductive axis : Type := AxisX | AxisY | AxisZ.

Definition acc_append (r : list Z * list Z * list Z) (a : axis) (v : Z)
  : list Z * list Z * list Z :=
  let '(x, y, z) := r in
  match a with
  | AxisX => (x ++ [v], y, z)
  | AxisY => (x, y ++ [v], z)
  | AxisZ => (x, y, z ++ [v])
  end.

(** The body of the outer loop of [process_acc_samples]: the three keys
    zipped with the batches of one frame. *)
Definition process_acc_frame (sample_size : Z) (r : list Z * list Z * list Z)
    (frame : bytes) : result (list Z * list Z * list Z) :=
  batched ← iter_batched frame sample_size true;
  Ok (foldl (λ r p, acc_append r p.1 (int_from_bytes_signed p.2)) r
        (zip [AxisX; AxisY; AxisZ] batched)).

Fixpoint process_acc_frames (sample_size : Z) (frames : list bytes)
    (r : list Z * list Z * list Z) : result (list Z * list Z * list Z) :=
  match frames with
  | [] => Ok r
  | frame :: rest =>
      r ← process_acc_frame sample_size r frame;
      process_acc_frames sample_size rest r
  end.

Definition process_acc_samples (frame_type : Z) (data : bytes)
  : result (Z * samples) :=
  if decide (frame_type < 0 ∨ 2 < frame_type) then
    Raise (ValueError "Unsupported acc frame type")
  else
    let sample_size := frame_type + 1 in
    frames ← iter_batched data (sample_size * 3) true;
    '(x, y, z) ← process_acc_frames sample_size frames ([], [], []);
    Ok (Z.of_nat (length frames), AccSamples x y z).

(** The dictionary returned by [process_hr_samples]: ["heart_rate"] is
    always present, the other keys only when their flag is set. *)
Record hr_sample : Type := {
  heart_rate : Z;
  sensor_contact : option bool;
  energy_expended : option Z;
  rr_interval : option (list Z);
}.

(** [flags & mask] as a condition *)
Definition flag (flags mask : Z) : bool := negb (Z.land flags mask =? 0).

Definition process_hr_samples (data : bytes) : result (option hr_sample) :=
  if decide (length data < 2)%nat then Ok None
  else
    let idx := 0%nat in
    flags ← index data 0;
    let idx := (idx + 1)%nat in
    '(hr, idx) ←
      (if flag flags 0x01
       then Ok (int_from_bytes (slice data idx (idx + 2)), (idx + 2)%nat)
       else b ← index data idx; Ok (b, (idx + 1)%nat));
    let contact := if flag flags 0x04 then Some (flag flags 0x02) else None in
    let '(energy, idx) :=
      if flag flags 0x08
      then (Some (int_from_bytes (slice data idx (idx + 2))), (idx + 2)%nat)
      else (None, idx) in
    rr ←
      (if flag flags 0x10
       then batched ← iter_batched (drop idx data) 2 true;
            Ok (Some ((λ val : bytes, (int_from_bytes val * 1000) `div` 1024)
                        <$> (batched : list bytes)))
       else Ok None);
    Ok (Some {| heart_rate := hr; sensor_contact := contact;
                energy_expended := energy; rr_interval := rr |}).

(** ** Notification types and the state of a [PolarH10] object *)

Inductive NotificationType : Type :=
  | ECG | ACC | BATTERY_LVL | DISCONNECT | HEAR_RATE.

Global Instance NotificationType_eq_dec : EqDecision NotificationType.
Proof. solve_decision. Defined.

Definition NotificationType_value (t : NotificationType) : Z :=
  match t with
  | ECG => 0
  | ACC => 2
  | BATTERY_LVL => 101
  | DISCONNECT => 102
  | HEAR_RATE => 201
  end.

Definition NotificationType_name (t : NotificationType) : string :=
  match t with
  | ECG => "ECG"
  | ACC => "ACC"
  | BATTERY_LVL => "BATTERY_LVL"
  | DISCONNECT => "DISCONNECT"
  | HEAR_RATE => "HEAR_RATE"
  end.

Definition NotificationType_members : list NotificationType :=
  [ECG; ACC; BATTERY_LVL; DISCONNECT; HEAR_RATE].

(** [NotificationType(v)] *)
Definition NotificationType_call (v : Z) : result NotificationType :=
  match list_find (λ t, NotificationType_value t = v) NotificationType_members with
  | Some (_, t) => Ok t
  | None => Raise (ValueError "is not a valid NotificationType")
  end.

Global Program Instance NotificationType_countable : Countable NotificationType :=
  inj_countable' NotificationType_value
    (λ v, match NotificationType_call v with Ok t => t | Raise _ => ECG end) _.
Next Obligation. by intros []. Qed.

(** A registered callback is a Python callable, known here by an
    identifier; its body is not modelled, a call is recorded in the trace
    [called] of the state and returns. *)
Definition callback := nat.

(** The argument of a data callback: [{"time": time_list, **processed}]. *)
Record pmd_result : Type := {
  time : list Z;
  processed : samples;
}.

Record PolarH10 : Type := {
  _callbacks : gmap NotificationType callback;
  _p_timestamp : gmap NotificationType Z;
  _config : gmap NotificationType pydict;
  _current_config : gmap NotificationType (option pydict);
  _device_time_delta : Z;
  (** the calls [callback(result)] made so far by [_handle_pmd_data] *)
  called : list (callback * pmd_result);
}.

Definition set_callbacks (f : gmap NotificationType callback → gmap NotificationType callback)
    (self : PolarH10) : PolarH10 :=
  {| _callbacks := f (_callbacks self); _p_timestamp := _p_timestamp self;
     _config := _config self; _current_config := _current_config self;
     _device_time_delta := _device_time_delta self; called := called self |}.

Definition set_p_timestamp (f : gmap NotificationType Z → gmap NotificationType Z)
    (self : PolarH10) : PolarH10 :=
  {| _callbacks := _callbacks self; _p_timestamp := f (_p_timestamp self);
     _config := _config self; _current_config := _current_config self;
     _device_time_delta := _device_time_delta self; called := called self |}.

Definition set_current_config
    (f : gmap NotificationType (option pydict) → gmap NotificationType (option pydict))
    (self : PolarH10) : PolarH10 :=
  {| _callbacks := _callbacks self; _p_timestamp := _p_timestamp self;
     _config := _config self; _current_config := f (_current_config self);
     _device_time_delta := _device_time_delta self; called := called self |}.

Definition set_device_time_delta (d : Z) (self : PolarH10) : PolarH10 :=
  {| _callbacks := _callbacks self; _p_timestamp := _p_timestamp self;
     _config := _config self; _current_config := _current_config self;
     _device_time_delta := d; called := called self |}.

Definition call (cb : callback) (r : pmd_result) (self : PolarH10) : PolarH10 :=
  {| _callbacks := _callbacks self; _p_timestamp := _p_timestamp self;
     _config := _config self; _current_config := _current_config self;
     _device_time_delta := _device_time_delta self;
     called := called self ++ [(cb, r)] |}.

(** Code that runs on a mutable state [S]: it changes the state and
    returns or raises; the state reached when it raises is kept. *)
Definition stateful (S A : Type) : Type := S → S * result A.

Global Instance stateful_bind {S} : MBind (stateful S) := λ A B k m s,
  match m s with
  | (s', Ok a) => k a s'
  | (s', Raise e) => (s', Raise e)
  end.

Global Instance stateful_ret {S} : MRet (stateful S) := λ A a s, (s, Ok a).

Definition get_state {S} : stateful S S := λ s, (s, Ok s).
Definition update {S} (f : S → S) : stateful S unit := λ s, (f s, Ok ()).
Definition raise {S A} (e : exn) : stateful S A := λ s, (s, Raise e).
Definition lift {S A} (r : result A) : stateful S A := λ s, (s, r).

(** [try: body except Exception as e: handler(e)] *)
Definition try_except {S A} (body : stateful S A) (handler : exn → stateful S A)
  : stateful S A := λ s,
  match body s with
  | (s', Ok a) => (s', Ok a)
  | (s', Raise e) => handler e s'
  end.

(** A method of the [PolarH10] object. *)
Abbreviation method := (stateful PolarH10).

(** [del self.<field>[key]] on a dictionary attribute of the object:
    [KeyError] when the key is missing. *)
Definition del_item {V} (field : PolarH10 → gmap NotificationType V)
    (set_field : (gmap NotificationType V → gmap NotificationType V) →
                 PolarH10 → PolarH10)
    (key : NotificationType) : method unit :=
  self ← get_state;
  if decide (field self !! key = None) then raise KeyError
  else update (set_field (delete key)).

Section Device.
Context {E : Enums}.

(** [PMDMeasurement(v)] *)
Definition PMDMeasurement_call (v : Z) : result Z :=
  if PMDMeasurement_member v then Ok v
  else Raise (ValueError "is not a valid PMDMeasurement").

(** [PMDStatus(v)] *)
Definition PMDStatus_call (v : Z) : result Z :=
  if PMDStatus_member v then Ok v
  else Raise (ValueError "is not a valid PMDStatus").

(** *** Streamed data *)

(** What the [try] statement of [_handle_pmd_data] leaves behind: the
    locals [n_samples] and [processed] bound by a decoder, or unbound when
    the decoder raised and the [except] clause logged it, or the [return]
    of the [else] branch. *)
Inductive try_outcome : Type :=
  | Bound (n_samples : Z) (processed : samples)
  | Unbound
  | Return.

Definition bind_locals (r : result (Z * samples)) : try_outcome :=
  match r with
  | Ok (n_samples, processed) => Bound n_samples processed
  | Raise _ => Unbound
  end.

Definition decode_frame (measurement_type frame_type : Z) (samples : bytes)
  : try_outcome :=
  if decide (measurement_type = 0) then
    bind_locals (process_ecg_samples frame_type samples)
  else if decide (measurement_type = 2) then
    bind_locals (process_acc_samples frame_type samples)
  else Return.

(** [self._current_config[notify_type]["SAMPLE_RATE"]] *)
Definition current_sample_rate (self : PolarH10) (notify_type : NotificationType)
  : result pyval :=
  match _current_config self !! notify_type with
  | None => Raise KeyError
  | Some None => Raise TypeError
  | Some (Some config) =>
      match dict_get "SAMPLE_RATE" config with
      | Some v => Ok v
      | None => Raise KeyError
      end
  end.

(** The resynchronisation of the device clock; the message it logs
    formats [dif // 1e6], which converts [dif] to a float. *)
Definition synch_device_time (now timestamp : Z) : method unit :=
  self ← get_state;
  if decide (10 ^ 9 < Z.abs (now - timestamp - _device_time_delta self)) then
    let dif := now - timestamp - _device_time_delta self in
    _ ← update (set_device_time_delta (_device_time_delta self + dif));
    if decide (float_limit ≤ Z.abs dif) then raise OverflowError else mret ()
  else mret ().

(** [_handle_pmd_data]; [now] is the host time in nanoseconds, local
    offset added. *)
Definition _handle_pmd_data (now : Z) (data : bytes) : method unit :=
  b ← lift (index data 0);
  measurement_type ← lift (PMDMeasurement_call b);
  let timestamp := int_from_bytes (slice data 1 9) in
  frame_type ← lift (index data 9);
  let samples := drop 10 data in
  _ ← synch_device_time now timestamp;
  notify_type ← lift (NotificationType_call measurement_type);
  self ← get_state;
  match _callbacks self !! notify_type with
  | None => mret ()
  | Some callback =>
      match decode_frame measurement_type frame_type samples with
      | Return => mret ()
      | outcome =>
          sample_rate ← lift (current_sample_rate self notify_type);
          '(n_samples, processed) ←
            match outcome with
            | Bound n_samples processed => mret (n_samples, processed)
            | _ => raise UnboundLocalError
            end;
          p_timestamp ←
            match _p_timestamp self !! notify_type with
            | Some p => mret p
            | None => raise KeyError
            end;
          time_list ←
            match sample_rate with
            | VInt sample_rate =>
                lift (get_timestamps_list n_samples sample_rate timestamp
                        p_timestamp (_device_time_delta self))
            | VList _ =>
                if decide (n_samples ≤ 0) then
                  raise (ValueError "Number of samples must be grater than zero")
                else raise TypeError
            end;
          _ ← update (set_p_timestamp (<[notify_type := timestamp]>));
          update (call callback {| time := time_list; processed := processed |})
      end
  end.

(** *** Control-point responses *)

(** The variables that [handle_response] shares with the pending
    [_pmd_control_point_request]. *)
Record transaction : Type := {
  response_status : Z;
  response_params : pydict;
  response_event : bool;
}.

(** The transaction as [_pmd_control_point_request] creates it. *)
Definition pending : transaction :=
  {| response_status := PMDStatus_ERROR_INVALID_STATE;
     response_params := [];
     response_event := false |}.

Definition handle_response (command : PMDCommand) (measurement_type : Z)
    (data : bytes) : stateful transaction unit :=
  c ← lift (index data 1);
  mismatch ←
    (if decide (c ≠ PMDCommand_value command) then mret true
     else m ← lift (index data 2);
          mret (bool_decide (m ≠ measurement_type)));
  if mismatch : bool then mret ()
  else
    s ← lift (index data 3);
    status ← lift (PMDStatus_call s);
    _ ← update (λ t, {| response_status := status;
                        response_params := response_params t;
                        response_event := response_event t |});
    _ ← (if decide (status = PMDStatus_SUCCESS) then
           params ← lift (deserialize_pmd_parameters (drop 5 data));
           update (λ t, {| response_status := response_status t;
                           response_params := params;
                           response_event := response_event t |})
         else mret ());
    update (λ t, {| response_status := response_status t;
                    response_params := response_params t;
                    response_event := true |}).

(** What [_pmd_control_point_request] returns once the wait is over: the
    shared variables if the event was set, the time-out answer if not. *)
Definition request_result (t : transaction) : Z * pydict :=
  if response_event t then (response_status t, response_params t)
  else (PMDStatus_ERROR_INVALID_STATE, []).

(** *** Registration and removal *)

(** What the BLE transport answers during one call of a lifecycle
    method: the outcome of [start_notify] on the heart-rate characteristic,
    and the value or exception of
    [await self._pmd_control_point_request(command, measurement, payload)]. *)
Record transport : Type := {
  start_notify_heart_rate : result unit;
  _pmd_control_point_request : PMDCommand → Z → bytes → result (Z * pydict);
}.

(** [str(value)] *)
Definition pyval_str (v : pyval) : string :=
  match v with
  | VInt x => pretty x
  | VList xs => "[" +:+ String.concat ", " (pretty <$> xs) +:+ "]"
  end.

(** The first loop of [_validate_pmd_parameters]: every capability
    defaults to its last listed option. *)
Fixpoint default_params (items : pydict) (params : pydict) : result pydict :=
  match items with
  | [] => Ok params
  | (k, v) :: rest =>
      v' ← match v with
           | VList xs =>
               match last xs with
               | Some x => Ok (VInt x)
               | None => Raise IndexError
               end
           | _ => Ok v
           end;
      default_params rest (dict_set k v' params)
  end.

(** [value not in capability] *)
Definition not_in (value capability : pyval) : result bool :=
  match capability with
  | VList xs =>
      match value with
      | VInt x => Ok (bool_decide (x ∉ xs))
      | VList _ => Ok true
      end
  | VInt _ => Raise TypeError
  end.

(** The second loop of [_validate_pmd_parameters]. *)
Fixpoint check_params (notification_type : NotificationType)
    (capabilities : pydict) (items : pydict) (valid_params : pydict)
  : result pydict :=
  match items with
  | [] => Ok valid_params
  | (setting, value) :: rest =>
      match dict_get setting capabilities with
      | None =>
          Raise (ValueError ("Unsupported setting " +:+ setting +:+ " for "
                             +:+ NotificationType_name notification_type))
      | Some capability =>
          bad ← not_in value capability;
          if bad : bool then
            Raise (ValueError ("Invalid value " +:+ pyval_str value +:+ " for "
                               +:+ setting))
          else
            check_params notification_type capabilities rest
              (dict_set setting value valid_params)
      end
  end.

Definition _validate_pmd_parameters (notification_type : NotificationType)
    (pmd_config : gmap NotificationType pydict) (parameters : option pydict)
  : result (option pydict) :=
  match pmd_config !! notification_type with
  | None => Raise KeyError
  | Some capabilities =>
      params ← default_params capabilities [];
      match params, parameters with
      | [], _ => Ok None
      | _, None | _, Some [] => Ok (Some params)
      | _, Some parameters =>
          let params := foldl (λ d kv, dict_set kv.1 kv.2 d) params parameters in
          valid_params ← check_params notification_type capabilities params [];
          Ok (Some valid_params)
      end
  end.

(** [serialize_pmd_parameters(valid_params)], where [valid_params] may be
    [None]. *)
Definition serialize_valid_params (valid_params : option pydict) : result bytes :=
  match valid_params with
  | Some parameters => serialize_pmd_parameters parameters
  | None => Raise AttributeError
  end.

Definition command_failed (status : Z) : exn :=
  PolarH10Error ("PMD command failed: " +:+ PMDStatus_name status).

Definition register_notification (env : transport)
    (notification_type : NotificationType) (callback : callback)
    (parameters : option pydict) : method unit :=
  self ← get_state;
  if decide (_config self !! notification_type = None) then
    raise (ValueError ("Unsupported measurement type "
                       +:+ NotificationType_name notification_type))
  else if decide (is_Some (_callbacks self !! notification_type)) then
    raise (ValueError "Notification already registered for this type")
  else
    valid_params ←
      lift (_validate_pmd_parameters notification_type (_config self) parameters);
    _ ← update (set_callbacks (<[notification_type := callback]>));
    _ ← update (set_current_config (<[notification_type := valid_params]>));
    if decide (notification_type = HEAR_RATE) then
      lift (start_notify_heart_rate env)
    else if decide (100 ≤ NotificationType_value notification_type) then mret ()
    else
      try_except
        (_ ← update (set_p_timestamp (<[notification_type := 0]>));
         measurement ←
           lift (PMDMeasurement_call (NotificationType_value notification_type));
         payload ← lift (serialize_valid_params valid_params);
         '(status, _) ←
           lift (_pmd_control_point_request env START_MEASUREMENT measurement payload);
         if decide (status ≠ PMDStatus_SUCCESS) then raise (command_failed status)
         else mret ())
        (λ e,
           _ ← del_item _callbacks set_callbacks notification_type;
           _ ← del_item _current_config set_current_config notification_type;
           raise e).

Definition remove_notification (env : transport)
    (notification_type : NotificationType) : method unit :=
  self ← get_state;
  if decide (_config self !! notification_type = None) then
    raise (ValueError ("Unsupported measurement type "
                       +:+ NotificationType_name notification_type))
  else if decide (_callbacks self !! notification_type = None) then
    raise (ValueError "Notification not registered for this type")
  else if decide (notification_type = HEAR_RATE) then
    lift (start_notify_heart_rate env)
  else if decide (100 ≤ NotificationType_value notification_type) then mret ()
  else
    try_except
      (measurement ←
         lift (PMDMeasurement_call (NotificationType_value notification_type));
       '(status, _) ←
         lift (_pmd_control_point_request env STOP_MEASUREMENT measurement []);
       if decide (status ≠ PMDStatus_SUCCESS) then raise (command_failed status)
       else
         _ ← del_item _callbacks set_callbacks notification_type;
         del_item _current_config set_current_config notification_type)
      (λ e, raise e).

End Device.

(** ** A table of wire values

    One table that [enums.py] can hold.  The values of [SAMPLE_RATE],
    [RESOLUTION] and [RANGE] are those of the byte strings in
    [tests/test_utils.py]; the others follow the numbering of the Polar
    measurement protocol.  It is used for concrete inputs only. *)
Definition polar_setting_value (s : PMDSetting) : Z :=
  match s with
  | SAMPLE_RATE => 0
  | RESOLUTION => 1
  | RANGE => 2
  | RANGE_MILLIUNIT => 3
  | CHANNELS => 4
  | FACTOR => 5
  end.

Definition polar_command_value (c : PMDCommand) : Z :=
  match c with
  | GET_MEASUREMENT_SETTINGS => 1
  | START_MEASUREMENT => 2
  | STOP_MEASUREMENT => 3
  end.

Definition polar_enums : Enums.
Proof.
  refine {| PMDSetting_value := polar_setting_value;
            PMDCommand_value := polar_command_value;
            PMDMeasurement_member := λ v, bool_decide (v ∈ [0; 1; 2; 3; 5; 6]);
            PMDStatus_member := λ v, bool_decide (0 ≤ v ≤ 13);
            PMDStatus_name := λ v, if decide (v = 0) then "SUCCESS"
                                   else "ERROR_" +:+ pretty v;
            PMDStatus_SUCCESS := 0;
            PMDStatus_ERROR_INVALID_STATE := 12 |}.
  - intros []; simpl; lia.
  - intros [] []; simpl; congruence.
  - reflexivity.
  - reflexivity.
  - reflexivity.
  - reflexivity.
  - discriminate.
Defined.

(** ** The timestamp rule in the words of the specification *)

(** The spacing of one frame and the timestamp it is counted from: the
    observed spacing from the previous frame timestamp when it deviates at
    most 10% from the ideal one, else the ideal spacing from the frame
    timestamp moved back by [n_samples] steps.  Divisions are integer
    divisions, as everywhere on these nanosecond counts. *)
Definition frame_spacing (n_samples sample_rate timestamp previous : Z) : Z * Z :=
  let ideal := 10 ^ 9 `div` sample_rate in
  let observed := (timestamp - previous) `div` n_samples in
  if decide (10 * Z.abs (observed - ideal) ≤ ideal)
  then (previous, observed)
  else (timestamp - n_samples * ideal, ideal).

(** [previous + delta * (i + 1) + device_time_delta] for [i] in
    [0, n_samples). *)
Definition frame_timestamps (n_samples sample_rate timestamp previous
    device_time_delta : Z) : list Z :=
  let '(previous, delta) :=
    frame_spacing n_samples sample_rate timestamp previous in
  (λ i, previous + delta * (i + 1) + device_time_delta) <$> range n_samples.

(** The device time delta after the resynchronisation step. *)
Definition synched_delta (now timestamp device_time_delta : Z) : Z :=
  if decide (10 ^ 9 < Z.abs (now - timestamp - device_time_delta))
  then now - timestamp
  else device_time_delta.

(** The object as [__init__] leaves it. *)
Definition PolarH10_init : PolarH10 :=
  {| _callbacks := ∅;
     _p_timestamp := ∅;
     _config := <[DISCONNECT := []]> (<[HEAR_RATE := []]> ∅);
     _current_config := ∅;
     _device_time_delta := 0;
     called := [] |}.

(** ** The vocabulary of the codec claims *)

(** [x] fits [size] bytes. *)
Definition fits (size : nat) (x : Z) : Prop := 0 ≤ x < 256 ^ Z.of_nat size.

Definition value_fits (size : nat) (v : pyval) : Prop :=
  match v with
  | VInt x => fits size x
  | VList xs => Forall (fits size) xs
  end.

(** The capability-valid maps of the specification: a [dict] (no key
    twice) whose keys name settings and whose values are integers, or lists
    of integers, that fit the fixed wire width of their setting. *)
Definition capability_valid (m : pydict) : Prop :=
  NoDup m.*1 ∧
  Forall (λ kv, ∃ s, kv.1 = PMDSetting_name s ∧
                     value_fits (get_setting_size (ByMember s)) kv.2) m.

(** The entries that the code takes round by design: the setting has the
    default width of two bytes, which is the width the encoder writes for
    every setting, and a list has a length that the count byte can hold and
    that the decoder does not read as a scalar. *)
Definition entry_ok (kv : string * pyval) : Prop :=
  ∃ s, kv.1 = PMDSetting_name s ∧
       get_setting_size (ByMember s) = 2%nat ∧
       value_fits 2 kv.2 ∧
       match kv.2 with
       | VInt _ => True
       | VList xs => length xs ≠ 1%nat ∧ (length xs < 256)%nat
       end.

(** The last entry is not an empty list (an entry of two bytes at the end
    of the buffer does not pass the loop condition of the decoder). *)
Definition ends_ok (m : pydict) : Prop := ∀ k, last m ≠ Some (k, VList []).

Section Encoding.
Context {E : Enums}.

(** The bytes that the encoder writes for the entries that come back:
    the values two bytes wide, after the setting id and the count. *)
Definition values_bytes (size : nat) (xs : list Z) : bytes :=
  concat (le_bytes size <$> xs).

Definition entry_bytes (kv : string * pyval) : bytes :=
  match PMDSetting_getitem kv.1 with
  | Ok s =>
      match kv.2 with
      | VInt x => PMDSetting_value s :: 1 :: le_bytes 2 x
      | VList xs =>
          PMDSetting_value s :: Z.of_nat (length xs) :: values_bytes 2 xs
      end
  | Raise _ => []
  end.

Definition encoding (m : pydict) : bytes := concat (entry_bytes <$> m).

End Encoding.


(** ** More of the sources *)

(** [x.to_bytes(n, "little", signed=True)], as [tests/test_utils.py] builds
    its frames: two's complement on [n] bytes, [OverflowError] outside
    [-256^n/2, 256^n/2). *)
Definition int_to_bytes_signed (x : Z) (n : nat) : result bytes :=
  let w := 256 ^ Z.of_nat n in
  if decide (- w ≤ 2 * x < w) then Ok (le_bytes n (x `mod` w))
  else Raise OverflowError.

(** The frame that the tests build for [process_ecg_samples]:
    [b"".join([x.to_bytes(3, "little", signed=True) for x in samples])]. *)
Fixpoint ecg_frame (lead_1 : list Z) : result bytes :=
  match lead_1 with
  | [] => Ok []
  | x :: rest =>
      b ← int_to_bytes_signed x 3;
      frame ← ecg_frame rest;
      Ok (b ++ frame)
  end.

(** The frame that the tests build for [process_acc_samples]: for every
    sample the three axes in turn, each [val.to_bytes(size, "little",
    signed=True)]. *)
Fixpoint acc_frame (size : nat) (xyz : list (Z * Z * Z)) : result bytes :=
  match xyz with
  | [] => Ok []
  | (x, y, z) :: rest =>
      bx ← int_to_bytes_signed x size;
      by_ ← int_to_bytes_signed y size;
      bz ← int_to_bytes_signed z size;
      frame ← acc_frame size rest;
      Ok (bx ++ by_ ++ bz ++ frame)
  end.

(** Where the RR intervals of a heart-rate payload start: after the flags,
    the heart rate on one or two bytes and the energy expended when
    present. *)
Definition rr_offset (flags : Z) : nat :=
  ((if flag flags 0x01 then 3 else 2) + (if flag flags 0x08 then 2 else 0))%nat.

(** The entries that [serialize_pmd_parameters] accepts: the key is the
    name of a setting, the values fit two bytes and a list has at most 255
    elements. *)
Definition serializable (kv : string * pyval) : Prop :=
  (∃ s, kv.1 = PMDSetting_name s) ∧ value_fits 2 kv.2 ∧
  match kv.2 with
  | VInt _ => True
  | VList xs => (length xs < 256)%nat
  end.

(** The default of a capability: the last option of a list, a scalar as
    it is. *)
Definition default_option (v : pyval) : pyval :=
  match v with
  | VList xs => VInt (default 0 (last xs))
  | VInt _ => v
  end.

(** A chosen value is one of the options that the capabilities list for
    its setting. *)
Definition listed_option (capabilities : pydict) (kv : string * pyval) : Prop :=
  ∃ xs x, dict_get kv.1 capabilities = Some (VList xs) ∧ kv.2 = VInt x ∧ x ∈ xs.

Section Delivery.
Context {E : Enums}.

(** A control-point notification that the handler of a request does not
    take for its own: the echoed command differs, or the echoed
    measurement kind does. *)
Definition mismatching (command : PMDCommand) (measurement_type : Z)
    (data : bytes) : Prop :=
  ∃ c, index data 1 = Ok c ∧
       (c ≠ PMDCommand_value command ∨
        ∃ m, index data 2 = Ok m ∧ m ≠ measurement_type).

(** The shared variables of a request after its handler was called with
    the notifications [responses] in turn; an exception that a call
    raises goes to the transport and does not undo what the call has
    assigned. *)
Definition handle_responses (command : PMDCommand) (measurement_type : Z)
    (responses : list bytes) (t : transaction) : transaction :=
  foldl (λ t data, (handle_response command measurement_type data t).1)
    t responses.

End Delivery.
(** * Properties *)

(** ** Bytes and integers *)

Local Arguments index : simpl never.
Local Arguments slice : simpl never.
Local Arguments int_to_bytes : simpl never.
Local Arguments get_setting_size : simpl never.
Local Arguments le_bytes : simpl never.

Lemma le_bytes_length n x : length (le_bytes n x) = n.
Proof. revert x. induction n as [|n IH]; intros x; simpl; [done|]. by rewrite IH. Qed.

Lemma int_from_le_bytes n x :
  0 ≤ x < 256 ^ Z.of_nat n → int_from_bytes (le_bytes n x) = x.
Proof.
  revert x. induction n as [|n IH]; intros x Hx; simpl.
  - change (256 ^ Z.of_nat 0) with 1 in Hx. lia.
  - rewrite IH.
    + pose proof (Z.div_mod x 256). lia.
    + rewrite Nat2Z.inj_succ, Z.pow_succ_r in Hx by lia.
      split; [apply Z.div_pos; lia|].
      apply Z.div_lt_upper_bound; lia.
Qed.

Lemma slice_app pre xs rest :
  slice (pre ++ xs ++ rest) (length pre) (length pre + length xs) = xs.
Proof.
  unfold slice. rewrite drop_app_length.
  replace (length pre + length xs - length pre)%nat with (length xs) by lia.
  by rewrite take_app_length.
Qed.

Lemma slice_app_n pre xs rest n :
  n = length xs → slice (pre ++ xs ++ rest) (length pre) (length pre + n) = xs.
Proof. intros ->. apply slice_app. Qed.

Lemma index_app_length pre b rest : index (pre ++ b :: rest) (length pre) = Ok b.
Proof. unfold index. by rewrite list_lookup_middle. Qed.

Lemma index_app_length_1 pre b c rest :
  index (pre ++ b :: c :: rest) (length pre + 1) = Ok c.
Proof.
  change (pre ++ b :: c :: rest) with (pre ++ [b] ++ c :: rest).
  rewrite app_assoc.
  replace (length pre + 1)%nat with (length (pre ++ [b]))
    by (rewrite length_app; simpl; lia).
  apply index_app_length.
Qed.

(** Once the fuel covers the bytes left, [batches] does not depend on it:
    the generator of the model is the generator of the source. *)
Lemma batches_fuel fuel (data : bytes) n strict :
  (0 < n)%nat → (length data ≤ fuel)%nat →
  batches (S fuel) data n strict = batches fuel data n strict.
Proof.
  intros Hn. revert data.
  induction fuel as [|fuel IH]; intros data Hlen.
  - destruct data; [done|simpl in Hlen; lia].
  - destruct data as [|b data]; [done|].
    change (batches (S (S fuel)) (b :: data) n strict) with
      (let batch := take n (b :: data) in
       if strict && negb (length batch =? n)%nat
       then Raise (ValueError "batched(): incomplete batch")
       else rest ← batches (S fuel) (drop n (b :: data)) n strict;
            Ok (batch :: rest)).
    change (batches (S fuel) (b :: data) n strict) with
      (let batch := take n (b :: data) in
       if strict && negb (length batch =? n)%nat
       then Raise (ValueError "batched(): incomplete batch")
       else rest ← batches fuel (drop n (b :: data)) n strict;
            Ok (batch :: rest)).
    cbv zeta. rewrite IH; [done|].
    rewrite length_drop. simpl in *. lia.
Qed.

(** ** The enumerations *)

Lemma PMDSetting_members_all s : s ∈ PMDSetting_members.
Proof. unfold PMDSetting_members. destruct s; set_solver. Qed.

Lemma PMDSetting_getitem_name s : PMDSetting_getitem (PMDSetting_name s) = Ok s.
Proof. by destruct s. Qed.

Lemma PMDSetting_name_inj s t : PMDSetting_name s = PMDSetting_name t → s = t.
Proof. by destruct s, t. Qed.

Section CodecFacts.
Context {E : Enums}.

Lemma PMDSetting_call_value s : PMDSetting_call (PMDSetting_value s) = Ok s.
Proof.
  unfold PMDSetting_call.
  destruct (list_find _ _) as [[i t]|] eqn:Hfind.
  - apply list_find_Some in Hfind as (_ & Heq & _).
    by rewrite (PMDSetting_value_inj _ _ Heq).
  - apply list_find_None in Hfind.
    rewrite Forall_forall in Hfind.
    by destruct (Hfind s (PMDSetting_members_all s)).
Qed.

Lemma PMDSetting_call_undefined b :
  (∀ s, PMDSetting_value s ≠ b) →
  PMDSetting_call b = Raise (ValueError "is not a valid PMDSetting").
Proof.
  intros Hb. unfold PMDSetting_call.
  destruct (list_find _ _) as [[i t]|] eqn:Hfind; [|done].
  apply list_find_Some in Hfind as (_ & Heq & _). by destruct (Hb t).
Qed.

(** *** The decoder loop ends *)

Lemma read_values_offset count data offset size value :
  (offset ≤ (read_values count data offset size value).2)%nat.
Proof.
  revert offset value.
  induction count as [|c IH]; intros offset value; simpl; [lia|].
  case_decide; simpl; [lia|].
  etrans; [|apply IH]. lia.
Qed.

Lemma deserialize_entry_offset data offset params offset' params' :
  deserialize_entry data offset params = Ok (offset', params') →
  (offset + 2 ≤ offset')%nat.
Proof.
  unfold deserialize_entry. intros H.
  destruct (index data offset) as [b|]; [simpl in H|done].
  destruct (PMDSetting_call b) as [s|]; [simpl in H|done].
  destruct (index data (offset + 1)) as [c|]; [simpl in H|done].
  case_decide.
  - injection H as <- _. lia.
  - pose proof (read_values_offset (Z.to_nat c) data (offset + 1 + 1)
                  (get_setting_size (ByMember s)) []) as Hle.
    destruct (read_values _ _ _ _ _) as [v o]. injection H as <- _.
    simpl in Hle. lia.
Qed.

(** Once the fuel covers the bytes left, more fuel changes nothing: the
    loop of the model is the loop of the source. *)
Lemma deserialize_loop_fuel fuel data offset params :
  (length data ≤ offset + fuel)%nat →
  deserialize_loop (S fuel) data offset params
  = deserialize_loop fuel data offset params.
Proof.
  revert offset params.
  induction fuel as [|fuel IH]; intros offset params Hlen.
  - simpl. case_decide; [lia|done].
  - change (deserialize_loop (S (S fuel)) data offset params) with
      (if decide (offset + 2 < length data)%nat then
         '(offset, params) ← deserialize_entry data offset params;
         deserialize_loop (S fuel) data offset params
       else Ok params).
    change (deserialize_loop (S fuel) data offset params) with
      (if decide (offset + 2 < length data)%nat then
         '(offset, params) ← deserialize_entry data offset params;
         deserialize_loop fuel data offset params
       else Ok params).
    case_decide; [|done].
    destruct (deserialize_entry data offset params) as [[o p]|] eqn:He; [|done].
    simpl. apply IH. apply deserialize_entry_offset in He. lia.
Qed.

Lemma deserialize_loop_more fuel k data offset params :
  (length data ≤ offset + fuel)%nat →
  deserialize_loop (k + fuel) data offset params
  = deserialize_loop fuel data offset params.
Proof.
  intros Hlen. induction k as [|k IH]; [done|].
  rewrite <- IH. apply (deserialize_loop_fuel (k + fuel)). lia.
Qed.

End CodecFacts.

(** ** Round trip of the parameter codec *)

Section RoundTrip.
Context {E : Enums}.

Lemma le_bytes_1 x : 0 ≤ x < 256 → int_to_bytes x 1 = Ok [x].
Proof.
  intros Hx. unfold int_to_bytes. rewrite decide_True by (simpl; lia).
  unfold le_bytes. by rewrite Z.mod_small.
Qed.

Lemma serialize_values_fits size xs data :
  Forall (fits size) xs →
  serialize_values size xs data = Ok (data ++ values_bytes size xs).
Proof.
  intros Hxs. revert data.
  induction Hxs as [|x xs Hx _ IH]; intros data; simpl.
  - by rewrite app_nil_r.
  - unfold int_to_bytes. rewrite decide_True by done. simpl.
    rewrite IH. by rewrite <- app_assoc.
Qed.

Lemma values_bytes_cons size x xs :
  values_bytes size (x :: xs) = le_bytes size x ++ values_bytes size xs.
Proof. reflexivity. Qed.

Lemma values_bytes_length size xs :
  length (values_bytes size xs) = (size * length xs)%nat.
Proof.
  induction xs as [|x xs IH]; [simpl; lia|].
  rewrite values_bytes_cons, length_app, le_bytes_length, IH. simpl. lia.
Qed.

Lemma serialize_items_ok m data :
  Forall entry_ok m → serialize_items m data = Ok (data ++ encoding m).
Proof.
  intros Hm. revert data.
  induction Hm as [|[k v] m (s & Hk & _ & Hv & Hlen) _ IH]; intros data.
  - simpl. by rewrite app_nil_r.
  - simpl in Hk, Hv, Hlen. subst k.
    unfold encoding. simpl. unfold entry_bytes at 1. simpl.
    rewrite PMDSetting_getitem_name. simpl.
    rewrite le_bytes_1 by apply PMDSetting_value_byte. simpl.
    destruct v as [x|xs]; simpl.
    + unfold int_to_bytes. rewrite decide_True by done. simpl.
      rewrite IH. f_equal. by rewrite <- !app_assoc.
    + destruct Hlen as [_ Hlen].
      rewrite le_bytes_1 by lia. simpl.
      rewrite serialize_values_fits by done. simpl.
      rewrite IH. f_equal. by rewrite <- !app_assoc.
Qed.

Lemma read_values_encoded size xs pre rest value :
  Forall (fits size) xs →
  read_values (length xs) (pre ++ values_bytes size xs ++ rest)
    (length pre) size value
  = (value ++ xs, (length pre + length (values_bytes size xs))%nat).
Proof.
  intros Hxs. revert pre value.
  induction Hxs as [|x xs Hx _ IH]; intros pre value; simpl.
  - rewrite app_nil_r. f_equal. lia.
  - rewrite values_bytes_cons.
    rewrite decide_False
      by (rewrite !length_app, le_bytes_length; lia).
    rewrite <- app_assoc.
    rewrite slice_app_n by (by rewrite le_bytes_length).
    rewrite int_from_le_bytes by done.
    replace (length pre + size)%nat with (length (pre ++ le_bytes size x))
      by (by rewrite length_app, le_bytes_length).
    rewrite (app_assoc pre), IH.
    rewrite <- app_assoc. f_equal. rewrite !length_app. lia.
Qed.

Lemma entry_bytes_length kv : entry_ok kv → (2 ≤ length (entry_bytes kv))%nat.
Proof.
  intros (s & Hk & _). unfold entry_bytes. rewrite Hk, PMDSetting_getitem_name.
  destruct (kv.2); simpl; lia.
Qed.

Lemma deserialize_entry_header pre b c tail params s :
  PMDSetting_call b = Ok s →
  deserialize_entry (pre ++ b :: c :: tail) (length pre) params
  = let data := (pre ++ [b; c]) ++ tail in
    let offset := length (pre ++ [b; c]) in
    let size := get_setting_size (ByMember s) in
    if decide (c = 1) then
      Ok ((offset + size)%nat,
          dict_set (PMDSetting_name s)
            (VInt (int_from_bytes (slice data offset (offset + size)))) params)
    else
      let '(value, offset) := read_values (Z.to_nat c) data offset size [] in
      Ok (offset, dict_set (PMDSetting_name s) (VList value) params).
Proof.
  intros Hs. unfold deserialize_entry.
  rewrite index_app_length. cbn [mbind result_bind]. rewrite Hs.
  cbn [mbind result_bind]. rewrite index_app_length_1.
  cbn [mbind result_bind].
  replace (length pre + 1 + 1)%nat with (length (pre ++ [b; c]))
    by (rewrite length_app; simpl; lia).
  by rewrite <- (app_assoc pre [b; c] tail).
Qed.

Lemma deserialize_entry_encoded kv pre rest params :
  entry_ok kv →
  deserialize_entry (pre ++ entry_bytes kv ++ rest) (length pre) params
  = Ok ((length pre + length (entry_bytes kv))%nat, dict_set kv.1 kv.2 params).
Proof.
  destruct kv as [k v]. intros (s & Hk & Hsize & Hv & Hlen).
  cbn [fst snd] in *. subst k. unfold entry_bytes. cbn [fst snd].
  rewrite PMDSetting_getitem_name.
  destruct v as [x|xs].
  - cbn [app]. rewrite (deserialize_entry_header _ _ _ _ _ s)
      by apply PMDSetting_call_value.
    cbv zeta. rewrite decide_True by done. rewrite Hsize.
    rewrite slice_app_n by (by rewrite le_bytes_length).
    rewrite int_from_le_bytes by done.
    do 2 f_equal. rewrite !length_app. simpl. rewrite ?le_bytes_length. lia.
  - destruct Hlen as [Hne Hlen].
    cbn [app]. rewrite (deserialize_entry_header _ _ _ _ _ s)
      by apply PMDSetting_call_value.
    cbv zeta. rewrite decide_False by lia.
    rewrite Hsize, Nat2Z.id, read_values_encoded by done.
    do 2 f_equal. rewrite !length_app. simpl. lia.
Qed.

End RoundTrip.

Section RoundTripLoop.
Context {E : Enums}.

Lemma dict_set_fresh k v (d : pydict) :
  k ∉ d.*1 → dict_set k v d = d ++ [(k, v)].
Proof.
  induction d as [|[k' v'] d IH]; intros Hk; simpl; [done|].
  rewrite fmap_cons, not_elem_of_cons in Hk. destruct Hk as [Hne Hk].
  rewrite decide_False by (simpl in Hne; congruence).
  by rewrite IH.
Qed.

Lemma foldl_dict_set_fresh (m d : pydict) :
  NoDup (d ++ m).*1 →
  foldl (λ d kv, dict_set kv.1 kv.2 d) d m = d ++ m.
Proof.
  revert d. induction m as [|[k v] m IH]; intros d Hnd; simpl.
  - by rewrite app_nil_r.
  - rewrite dict_set_fresh.
    + rewrite IH; rewrite <- app_assoc; done.
    + rewrite fmap_app, fmap_cons in Hnd.
      apply NoDup_app in Hnd as (_ & Hnd & _).
      intros Hin. apply (Hnd k Hin). left.
Qed.

Lemma encoding_cons kv m : encoding (kv :: m) = entry_bytes kv ++ encoding m.
Proof. reflexivity. Qed.

Lemma encoding_length m : Forall entry_ok m → (2 * length m ≤ length (encoding m))%nat.
Proof.
  induction 1 as [|kv m Hkv _ IH]; [simpl; lia|].
  rewrite encoding_cons, length_app. apply entry_bytes_length in Hkv.
  simpl. lia.
Qed.

Lemma entry_bytes_nonempty_list kv :
  entry_ok kv → (∀ k, kv ≠ (k, VList [])) → (3 ≤ length (entry_bytes kv))%nat.
Proof.
  destruct kv as [k v]. intros (s & Hk & _ & _ & _) Hne. simpl in Hk. subst k.
  unfold entry_bytes. cbn [fst snd]. rewrite PMDSetting_getitem_name.
  destruct v as [x|[|x xs]].
  - cbn [length]. rewrite le_bytes_length. lia.
  - by destruct (Hne (PMDSetting_name s)).
  - simpl. lia.
Qed.

Lemma ends_ok_tail kv m : ends_ok (kv :: m) → m ≠ [] → ends_ok m.
Proof.
  intros H Hm k. specialize (H k). destruct m; [done|]. by rewrite last_cons_cons in H.
Qed.

Lemma deserialize_loop_encoded m pre params fuel :
  Forall entry_ok m → ends_ok m → (length m ≤ fuel)%nat →
  deserialize_loop fuel (pre ++ encoding m) (length pre) params
  = Ok (foldl (λ d kv, dict_set kv.1 kv.2 d) params m).
Proof.
  intros Hm. revert pre params fuel.
  induction Hm as [|kv m Hkv Hm IH]; intros pre params fuel Hend Hfuel.
  - destruct fuel; [done|]. simpl.
    rewrite decide_False by (rewrite app_nil_r; lia). done.
  - destruct fuel as [|fuel]; [simpl in Hfuel; lia|].
    rewrite encoding_cons. cbn [deserialize_loop].
    rewrite decide_True.
    + rewrite deserialize_entry_encoded by done. cbn [mbind result_bind].
      rewrite app_assoc, <- length_app. apply IH; [|simpl in Hfuel; lia].
      destruct m; [by intros ?|]. by eapply ends_ok_tail.
    + rewrite !length_app.
      destruct m as [|kv' m].
      * assert (3 ≤ length (entry_bytes kv))%nat; [|lia].
        apply entry_bytes_nonempty_list; [done|].
        intros k ->. by destruct (Hend k).
      * apply entry_bytes_length in Hkv. apply encoding_length in Hm.
        simpl in Hm. lia.
Qed.

(** The offsets at which the loop starts an entry lie on the run of the
    decoder. *)
Lemma entry_start_loop data offset params :
  entry_start data offset params →
  ∃ k, (k ≤ offset)%nat ∧
       ∀ fuel, deserialize_loop (k + fuel) data 0 []
               = deserialize_loop fuel data offset params.
Proof.
  induction 1 as [|offset params offset' params' _ (k & Hk & IH) Hguard Hentry].
  - by exists 0%nat.
  - exists (S k). split.
    + apply deserialize_entry_offset in Hentry. lia.
    + intros fuel. replace (S k + fuel)%nat with (k + S fuel)%nat by lia.
      rewrite IH. cbn [deserialize_loop].
      rewrite decide_True by done. by rewrite Hentry.
Qed.

End RoundTripLoop.

(** ** C1 *)

(** A list of one element comes back as a scalar: the claim of C1 fails on
    a capability-valid map. *)
Lemma round_trip_singleton_list :
  let m := [("SAMPLE_RATE", VList [25])] in
  capability_valid m ∧
  round_trip (E:=polar_enums) m = Ok [("SAMPLE_RATE", VInt 25)] ∧
  round_trip (E:=polar_enums) m ≠ Ok m.
Proof.
  split; [|split; [reflexivity|discriminate]].
  split; simpl.
  - apply NoDup_singleton.
  - repeat constructor. exists SAMPLE_RATE. split; [done|].
    repeat constructor; by vm_compute.
Qed.

(** C1, amended: a map over the settings of the default two-byte width,
    with scalars and list elements in [0, 65536), lists of 0 or of 2 to
    255 elements and no empty list as last entry, is decoded from its
    encoding as it was, entries and list elements in the same order. *)
Theorem round_trip_two_byte_settings {E : Enums} (m : pydict) :
  NoDup m.*1 → Forall entry_ok m → ends_ok m →
  round_trip m = Ok m.
Proof.
  intros Hnd Hm Hend. unfold round_trip, serialize_pmd_parameters.
  rewrite serialize_items_ok by done. cbn [mbind result_bind app].
  unfold deserialize_pmd_parameters.
  pose proof (deserialize_loop_encoded m [] [] (length (encoding m)) Hm Hend)
    as Hloop.
  cbn [app length] in Hloop. rewrite Hloop.
  - by rewrite foldl_dict_set_fresh.
  - apply encoding_length in Hm. lia.
Qed.

Lemma round_trip_two_byte_settings_witness :
  let m := [("SAMPLE_RATE", VList [25; 50; 100; 200]); ("RESOLUTION", VInt 16);
            ("RANGE", VList [2; 4; 8])] in
  round_trip (E:=polar_enums) m = Ok m.
Proof.
  apply (round_trip_two_byte_settings (E:=polar_enums)).
  - compute_done.
  - repeat apply Forall_cons_2; try apply Forall_nil_2.
    + exists SAMPLE_RATE. repeat split; try done; try (simpl; lia).
      repeat constructor; by vm_compute.
    + exists RESOLUTION. repeat split; try done; by vm_compute.
    + exists RANGE. repeat split; try done; try (simpl; lia).
      repeat constructor; by vm_compute.
  - intros k. discriminate.
Defined.

(** A list of one element and the scalar have the same encoding, which the
    decoder reads as the scalar. *)
Lemma serialize_singleton_list {E : Enums} k x :
  serialize_pmd_parameters [(k, VList [x])]
  = serialize_pmd_parameters [(k, VInt x)].
Proof.
  unfold serialize_pmd_parameters. cbn [serialize_items length].
  destruct (PMDSetting_getitem k) as [s|]; [|done]. cbn [mbind result_bind].
  destruct (int_to_bytes (PMDSetting_value s) 1) as [id|]; [|done].
  cbn [mbind result_bind]. rewrite le_bytes_1 by lia.
  cbn [mbind result_bind serialize_values].
  destruct (int_to_bytes x _) as [b|]; [|done].
  cbn [mbind result_bind]. done.
Qed.

Lemma round_trip_singleton_scalar {E : Enums} s x :
  get_setting_size (ByMember s) = 2%nat → fits 2 x →
  round_trip [(PMDSetting_name s, VList [x])]
  = Ok [(PMDSetting_name s, VInt x)].
Proof.
  intros Hsize Hx.
  assert (Forall entry_ok [(PMDSetting_name s, VInt x)]) as Hm.
  { apply Forall_singleton. by exists s. }
  unfold round_trip. rewrite serialize_singleton_list.
  unfold serialize_pmd_parameters.
  rewrite serialize_items_ok by done. cbn [mbind result_bind app].
  unfold deserialize_pmd_parameters.
  pose proof (deserialize_loop_encoded _ [] []
                (length (encoding [(PMDSetting_name s, VInt x)])) Hm) as Hloop.
  cbn [app length] in Hloop. rewrite Hloop; [done|by intros k|].
  apply encoding_length in Hm. simpl in *. lia.
Qed.

(** ** C10 *)

(** The byte at offset 4 of this buffer is at a position where the decoder
    would start an entry and is the wire value of no setting, but two
    bytes are too few for the loop to take another turn: the decoder
    returns the entry read before it, and the claim of C10 fails. *)
Lemma deserialize_undefined_setting_in_tail :
  let data := [0; 1; 16; 0; 255; 1] in
  entry_start (E:=polar_enums) data 4 [("SAMPLE_RATE", VInt 16)] ∧
  data !! 4%nat = Some 255 ∧
  (∀ s, PMDSetting_value (Enums:=polar_enums) s ≠ 255) ∧
  deserialize_pmd_parameters (E:=polar_enums) data
  = Ok [("SAMPLE_RATE", VInt 16)].
Proof.
  split; [|split; [reflexivity|split; [intros []; discriminate|reflexivity]]].
  apply (entry_start_next _ 0 [] 4 [("SAMPLE_RATE", VInt 16)]).
  - apply entry_start_first.
  - simpl. lia.
  - reflexivity.
Qed.

(** C10, amended: when the byte at an offset where the decoder starts an
    entry is the wire value of no setting and at least three bytes are
    left from that offset on (the condition of the loop),
    [deserialize_pmd_parameters] raises [ValueError] and the entries read
    before it are not returned; when at most two bytes are left, the byte
    is part of the tail that the loop does not read, and the entries read
    before it are returned. *)
Theorem deserialize_undefined_setting_raises {E : Enums} (data : bytes)
    (offset : nat) (params : pydict) (b : Z) :
  entry_start data offset params →
  data !! offset = Some b →
  (∀ s, PMDSetting_value s ≠ b) →
  ((offset + 2 < length data)%nat →
   deserialize_pmd_parameters data
   = Raise (ValueError "is not a valid PMDSetting")) ∧
  ((length data ≤ offset + 2)%nat →
   deserialize_pmd_parameters data = Ok params).
Proof.
  intros Hstart Hb Hundef.
  destruct (entry_start_loop data offset params Hstart) as (k & Hk & Hloop).
  unfold deserialize_pmd_parameters. split.
  - intros Hguard.
    replace (length data) with (k + S (length data - S k))%nat by lia.
    rewrite Hloop. cbn [deserialize_loop].
    rewrite decide_True by done.
    unfold deserialize_entry, index. rewrite Hb. cbn [mbind result_bind].
    by rewrite PMDSetting_call_undefined.
  - intros Htail.
    rewrite <- (deserialize_loop_more (length data) k data 0 []) by lia.
    rewrite Hloop.
    destruct (length data) as [|n] eqn:Hn; [done|]. cbn [deserialize_loop].
    by rewrite decide_False by lia.
Qed.

Lemma deserialize_undefined_setting_raises_witness :
  deserialize_pmd_parameters (E:=polar_enums) [0; 1; 16; 0; 255; 1; 16; 0]
  = Raise (ValueError "is not a valid PMDSetting").
Proof.
  pose proof (deserialize_undefined_setting_raises (E:=polar_enums)
                [0; 1; 16; 0; 255; 1; 16; 0] 4
                [("SAMPLE_RATE", VInt 16)] 255) as Hraises.
  apply Hraises.
  - apply (entry_start_next _ 0 [] 4 [("SAMPLE_RATE", VInt 16)]).
    + apply entry_start_first.
    + simpl. lia.
    + reflexivity.
  - reflexivity.
  - intros []; discriminate.
  - simpl. lia.
Defined.

(** ** C2 *)

(** C2, at inputs with a truncated last entry, for every table of wire
    values.  A scalar entry (count 1) with a single byte left is returned
    as if that byte were the whole value, whatever the width of the
    setting.  A list entry of the four-byte setting [FACTOR] with three
    bytes left is closed, and the bytes left are then read as the next
    entry: when the first of them is the wire value of no setting the
    decoder raises. *)
Theorem deserialize_truncated_entry {E : Enums} :
  (∀ s b, deserialize_pmd_parameters [PMDSetting_value s; 1; b]
          = Ok [(PMDSetting_name s, VInt b)]) ∧
  (∀ b x y, (∀ s, PMDSetting_value s ≠ b) →
            deserialize_pmd_parameters [PMDSetting_value FACTOR; 2; b; x; y]
            = Raise (ValueError "is not a valid PMDSetting")).
Proof.
  split.
  - intros s b.
    pose proof (deserialize_entry_header [] (PMDSetting_value s) 1 [b] [] s
                  (PMDSetting_call_value s)) as Hentry.
    cbn [app length] in Hentry. cbv zeta in Hentry.
    rewrite decide_True in Hentry by done.
    replace (slice [PMDSetting_value s; 1; b] 2
               (2 + get_setting_size (ByMember s))) with [b] in Hentry
      by (by destruct s).
    unfold deserialize_pmd_parameters. cbn [length deserialize_loop].
    rewrite decide_True by lia. rewrite Hentry. cbn [mbind result_bind].
    rewrite decide_False by lia.
    cbn [dict_set int_from_bytes]. do 4 f_equal. lia.
  - intros b x y Hb.
    pose proof (deserialize_entry_header [] (PMDSetting_value FACTOR) 2
                  [b; x; y] [] FACTOR (PMDSetting_call_value FACTOR)) as Hentry.
    cbn [app length] in Hentry. cbv zeta in Hentry.
    rewrite decide_False in Hentry by done.
    change (read_values _ _ _ _ _) with (@nil Z, 2%nat) in Hentry.
    unfold deserialize_pmd_parameters. cbn [length deserialize_loop].
    rewrite decide_True by lia. rewrite Hentry. cbn [mbind result_bind].
    rewrite decide_True by lia.
    unfold deserialize_entry, index. cbn [lookup list_lookup mbind result_bind].
    by rewrite PMDSetting_call_undefined.
Qed.

Lemma deserialize_truncated_entry_witness :
  deserialize_pmd_parameters (E:=polar_enums) [0; 1; 25]
  = Ok [("SAMPLE_RATE", VInt 25)] ∧
  deserialize_pmd_parameters (E:=polar_enums) [5; 2; 255; 0; 0]
  = Raise (ValueError "is not a valid PMDSetting").
Proof.
  destruct (deserialize_truncated_entry (E:=polar_enums)) as [Hscalar Hlist].
  split.
  - apply (Hscalar SAMPLE_RATE 25).
  - apply (Hlist 255 0 0). intros []; discriminate.
Defined.

(** ** C9 *)

(** C9: the four reference payloads of the heart-rate decoder, and no
    result for an input of fewer than two bytes. *)
Theorem process_hr_samples_reference :
  process_hr_samples [0x01; 0x54]
  = Ok (Some {| heart_rate := 84; sensor_contact := None;
                energy_expended := None; rr_interval := None |}) ∧
  process_hr_samples [0x17; 0x14; 0x01; 0x9f; 0x03]
  = Ok (Some {| heart_rate := 276; sensor_contact := Some true;
                energy_expended := None; rr_interval := Some [905] |}) ∧
  process_hr_samples [0x14; 0x54; 0x44; 0x03; 0x5f; 0x03]
  = Ok (Some {| heart_rate := 84; sensor_contact := Some false;
                energy_expended := None; rr_interval := Some [816; 842] |}) ∧
  process_hr_samples [0x1e; 0x54; 0x49; 0x00; 0x9f; 0x03]
  = Ok (Some {| heart_rate := 84; sensor_contact := Some true;
                energy_expended := Some 73; rr_interval := Some [905] |}) ∧
  ∀ data : bytes, (length data < 2)%nat → process_hr_samples data = Ok None.
Proof.
  repeat split; try reflexivity.
  intros data Hlen. unfold process_hr_samples. by rewrite decide_True.
Qed.

Lemma process_hr_samples_reference_witness :
  process_hr_samples [] = Ok None ∧ process_hr_samples [0x54] = Ok None.
Proof.
  destruct process_hr_samples_reference as (_ & _ & _ & _ & Hshort).
  split; apply Hshort; simpl; lia.
Defined.

(** ** The codec on concrete inputs *)

(** The vectors of [tests/test_utils.py]. *)
Example test_param_serialization :
  serialize_pmd_parameters (E:=polar_enums)
    [("SAMPLE_RATE", VList [25; 50; 100; 200]); ("RESOLUTION", VInt 16);
     ("RANGE", VList [2; 4; 8])]
  = Ok [0; 4; 25; 0; 50; 0; 100; 0; 200; 0; 1; 1; 16; 0; 2; 3; 2; 0; 4; 0; 8; 0].
Proof. reflexivity. Qed.

Example test_param_deserialization :
  deserialize_pmd_parameters (E:=polar_enums)
    [0; 4; 25; 0; 50; 0; 100; 0; 200; 0; 1; 1; 16; 0; 2; 3; 2; 0; 4; 0; 8; 0]
  = Ok [("SAMPLE_RATE", VList [25; 50; 100; 200]); ("RESOLUTION", VInt 16);
        ("RANGE", VList [2; 4; 8])].
Proof. reflexivity. Qed.

(** A list entry cut inside a two-byte value is closed with the values
    read in full. *)
Example deserialize_truncated_list :
  deserialize_pmd_parameters (E:=polar_enums) [0; 2; 25; 0; 50]
  = Ok [("SAMPLE_RATE", VList [25])].
Proof. reflexivity. Qed.

(** An empty list as last entry is not decoded. *)
Example round_trip_empty_list_last :
  round_trip (E:=polar_enums) [("SAMPLE_RATE", VList [])] = Ok [].
Proof. reflexivity. Qed.

(** The encoder writes two bytes per value whatever the setting:
    [get_setting_size] is given the name, the decoder gives it the member.
    One-byte channels come back wrong, a four-byte factor that does not
    fit two bytes is refused. *)
Example round_trip_channels :
  serialize_pmd_parameters (E:=polar_enums) [("CHANNELS", VList [1; 2])]
  = Ok [4; 2; 1; 0; 2; 0] ∧
  round_trip (E:=polar_enums) [("CHANNELS", VList [1; 2])]
  = Ok [("CHANNELS", VList [1; 0])].
Proof. split; reflexivity. Qed.

Example serialize_factor :
  fits (get_setting_size (ByMember FACTOR)) 70000 ∧
  serialize_pmd_parameters (E:=polar_enums) [("FACTOR", VInt 70000)]
  = Raise OverflowError.
Proof. split; [by vm_compute|reflexivity]. Qed.

(** ** Timestamps: C6 *)

Lemma float_limit_large : 2 ^ 64 < float_limit.
Proof. by vm_compute. Qed.

Lemma range_length n : 0 ≤ n → Z.of_nat (length (range n)) = n.
Proof. intros Hn. unfold range. rewrite length_fmap, length_seq. lia. Qed.

Lemma ideal_delta_pos sample_rate :
  0 < sample_rate ≤ 10 ^ 9 →
  ∃ d, ideal_delta sample_rate = Ok d ∧ d = 10 ^ 9 `div` sample_rate ∧
       0 < d ≤ 10 ^ 9.
Proof.
  intros Hsr. pose proof float_limit_large as Hfl.
  exists (10 ^ 9 `div` sample_rate). unfold ideal_delta.
  rewrite decide_False by lia. repeat split.
  - apply Z.div_str_pos. lia.
  - apply Z.div_le_upper_bound; nia.
Qed.

Lemma deviates_ok a b :
  0 < b → Z.abs a < float_limit →
  deviates a b = Ok (bool_decide (b < 10 * Z.abs a)).
Proof.
  intros Hb Ha. unfold deviates.
  rewrite decide_False by lia. rewrite decide_False; [done|]. nia.
Qed.

(** What [get_timestamps_list] returns on its domain: the list of the
    specification. *)
Lemma get_timestamps_list_spec n_samples sample_rate timestamp p_timestamp delta :
  0 < n_samples → 0 < sample_rate ≤ 10 ^ 9 → p_timestamp ≤ timestamp →
  timestamp - p_timestamp < float_limit →
  get_timestamps_list n_samples sample_rate timestamp p_timestamp delta
  = Ok (frame_timestamps n_samples sample_rate timestamp p_timestamp delta).
Proof.
  intros Hn Hsr Hts Hbound. pose proof float_limit_large as Hfl.
  destruct (ideal_delta_pos sample_rate Hsr) as (d & Hd & Hdeq & Hdpos).
  unfold get_timestamps_list.
  rewrite !decide_False by lia. rewrite Hd. cbn [mbind result_bind].
  assert (0 ≤ (timestamp - p_timestamp) `div` n_samples ≤ timestamp - p_timestamp)
    as Hcalc.
  { split; [apply Z.div_pos; lia|]. apply Z.div_le_upper_bound; nia. }
  rewrite deviates_ok by lia. cbn [mbind result_bind].
  unfold frame_timestamps, frame_spacing. rewrite <- Hdeq.
  case_bool_decide; [rewrite decide_False by lia|rewrite decide_True by lia];
    f_equal; apply list_fmap_ext; intros i x _; lia.
Qed.

(** A sample rate above 10^9 satisfies the three preconditions, and the
    call raises [ZeroDivisionError]: the claim of C6 fails there. *)
Lemma get_timestamps_list_zero_spacing :
  0 < 1 ∧ 0 < 2 * 10 ^ 9 ∧ 0 ≤ 0 ∧
  get_timestamps_list 1 (2 * 10 ^ 9) 0 0 0 = Raise ZeroDivisionError.
Proof. split; [lia|]. split; [lia|]. split; [lia|]. reflexivity. Qed.

(** C6, amended: [get_timestamps_list] raises [ValueError] exactly when
    [n_samples <= 0], [sample_rate <= 0] or [timestamp < p_timestamp];
    when none of these holds, the sample rate is at most 10^9 and the time
    since the previous frame is in the range of a float, it returns a list
    of exactly [n_samples] timestamps. *)
Theorem get_timestamps_list_contract
    (n_samples sample_rate timestamp p_timestamp delta : Z) :
  ((∃ msg, get_timestamps_list n_samples sample_rate timestamp p_timestamp delta
           = Raise (ValueError msg))
   ↔ n_samples ≤ 0 ∨ sample_rate ≤ 0 ∨ timestamp < p_timestamp) ∧
  (0 < n_samples → 0 < sample_rate ≤ 10 ^ 9 → p_timestamp ≤ timestamp →
   timestamp - p_timestamp < float_limit →
   ∃ l, get_timestamps_list n_samples sample_rate timestamp p_timestamp delta
        = Ok l ∧ Z.of_nat (length l) = n_samples).
Proof.
  split; [split|].
  - intros [msg Hraise].
    destruct (decide (n_samples ≤ 0)); [lia|].
    destruct (decide (sample_rate ≤ 0)); [lia|].
    destruct (decide (timestamp < p_timestamp)); [lia|].
    exfalso. unfold get_timestamps_list in Hraise.
    rewrite !decide_False in Hraise by done.
    unfold ideal_delta in Hraise.
    destruct (decide (float_limit ≤ sample_rate)); [discriminate|].
    cbn [mbind result_bind] in Hraise. unfold deviates in Hraise.
    destruct (decide (_ = 0)); [discriminate|].
    destruct (decide (_ ≤ _)); [discriminate|].
    cbn [mbind result_bind] in Hraise.
    by destruct (bool_decide _).
  - intros Hpre. unfold get_timestamps_list.
    repeat case_decide; try lia; eauto.
  - intros Hn Hsr Hts Hbound. eexists. split.
    + by apply get_timestamps_list_spec.
    + unfold frame_timestamps. destruct (frame_spacing _ _ _ _).
      rewrite length_fmap. apply range_length. lia.
Qed.

Lemma get_timestamps_list_contract_witness :
  ∃ l, get_timestamps_list 2 130 15385615 1000 7 = Ok l ∧
       Z.of_nat (length l) = 2.
Proof.
  apply (get_timestamps_list_contract 2 130 15385615 1000 7).
  - lia.
  - lia.
  - lia.
  - by vm_compute.
Defined.

(** ** Streamed data: C3 and C4 *)

Lemma stateful_bind_run {S A B} (m : stateful S A) (k : A → stateful S B) s :
  (m ≫= k) s
  = match m s with
    | (s', Ok a) => k a s'
    | (s', Raise e) => (s', Raise e)
    end.
Proof. reflexivity. Qed.

Lemma stateful_bind_lift {S A B} (r : result A) (k : A → stateful S B) s :
  (lift r ≫= k) s
  = match r with
    | Ok a => k a s
    | Raise e => (s, Raise e)
    end.
Proof. by destruct r. Qed.

Lemma NotificationType_call_value kind :
  NotificationType_call (NotificationType_value kind) = Ok kind.
Proof. by destruct kind. Qed.

Section DataHandler.
Context {E : Enums}.

Lemma synch_device_time_run now timestamp self :
  ∃ r, synch_device_time now timestamp self
       = (set_device_time_delta
            (synched_delta now timestamp (_device_time_delta self)) self, r) ∧
       (Z.abs (now - timestamp - _device_time_delta self) < float_limit →
        r = Ok ()).
Proof.
  unfold synch_device_time, synched_delta, mbind, stateful_bind, get_state,
    update, raise, mret, stateful_ret.
  replace (_device_time_delta self +
           (now - timestamp - _device_time_delta self))
    with (now - timestamp) by lia.
  repeat case_decide; eexists; (split; [reflexivity || by destruct self|]);
    done || lia.
Qed.

Lemma decode_frame_kind kind frame_type samples :
  decode_frame (NotificationType_value kind) frame_type samples ≠ Return →
  PMDMeasurement_call (NotificationType_value kind)
  = Ok (NotificationType_value kind).
Proof.
  unfold decode_frame, PMDMeasurement_call. intros Hdec.
  destruct kind; simpl in *; try done.
  - by rewrite PMDMeasurement_ECG.
  - by rewrite PMDMeasurement_ACC.
Qed.

(** The frame up to the decoder: header read, clock resynchronised,
    callback found. *)
Lemma handle_pmd_data_decoded now data self kind cb frame_type :
  index data 0 = Ok (NotificationType_value kind) →
  index data 9 = Ok frame_type →
  _callbacks self !! kind = Some cb →
  decode_frame (NotificationType_value kind) frame_type (drop 10 data) ≠ Return →
  let timestamp := int_from_bytes (slice data 1 9) in
  let self1 :=
    set_device_time_delta
      (synched_delta now timestamp (_device_time_delta self)) self in
  ∃ r, synch_device_time now timestamp self = (self1, r) ∧
       (Z.abs (now - timestamp - _device_time_delta self) < float_limit →
        r = Ok ()) ∧
       _handle_pmd_data now data self
       = (_ ← lift r;
          sample_rate ← lift (current_sample_rate self1 kind);
          '(n_samples, processed) ←
            match decode_frame (NotificationType_value kind) frame_type
                    (drop 10 data) with
            | Bound n_samples processed => mret (n_samples, processed)
            | _ => raise UnboundLocalError
            end;
          p_timestamp ←
            match _p_timestamp self1 !! kind with
            | Some p => mret p
            | None => raise KeyError
            end;
          time_list ←
            match sample_rate with
            | VInt sample_rate =>
                lift (get_timestamps_list n_samples sample_rate timestamp
                        p_timestamp (_device_time_delta self1))
            | VList _ =>
                if decide (n_samples ≤ 0) then
                  raise (ValueError "Number of samples must be grater than zero")
                else raise TypeError
            end;
          _ ← update (set_p_timestamp (<[kind := timestamp]>));
          update (call cb {| time := time_list; processed := processed |}))
         self1.
Proof.
  intros H0 H9 Hcb Hdec timestamp self1.
  destruct (synch_device_time_run now timestamp self) as (r & Hsynch & Hr).
  exists r. split; [done|]. split; [done|].
  unfold _handle_pmd_data.
  rewrite stateful_bind_lift, H0.
  rewrite stateful_bind_lift, (decode_frame_kind _ _ _ Hdec).
  rewrite stateful_bind_lift, H9.
  fold timestamp. rewrite stateful_bind_run, Hsynch.
  destruct r as [[]|e]; [|done].
  rewrite stateful_bind_lift, NotificationType_call_value.
  rewrite stateful_bind_run. cbn [get_state].
  replace (_callbacks self1 !! kind) with (Some cb) by (by destruct self).
  destruct (decode_frame _ _ _); done.
Qed.

End DataHandler.

(** C3, a frame whose time since the previous one is not a multiple of the
    sample count: two ECG samples at 130 Hz, previous frame at 1000, this
    frame at 15385615.  The last timestamp emitted is 15385614 (the device
    time delta is 0); the stored previous frame timestamp becomes 15385615,
    the timestamp of the frame. *)
Lemma handle_pmd_data_previous_is_frame_timestamp :
  let self :=
    {| _callbacks := {[ECG := 7%nat]};
       _p_timestamp := {[ECG := 1000]};
       _config := ∅;
       _current_config := {[ECG := Some [("SAMPLE_RATE", VInt 130)]]};
       _device_time_delta := 0;
       called := [] |} in
  let data := [0; 15; 196; 234; 0; 0; 0; 0; 0; 0; 1; 0; 0; 2; 0; 0] in
  let self' := (_handle_pmd_data (E:=polar_enums) 15385615 data self).1 in
  (_handle_pmd_data (E:=polar_enums) 15385615 data self).2 = Ok () ∧
  called self' = [(7%nat, {| time := [7693307; 15385614];
                             processed := EcgSamples [1; 2] |})] ∧
  _device_time_delta self' = 0 ∧
  _p_timestamp self' !! ECG = Some 15385615 ∧
  _p_timestamp self' !! ECG ≠ Some 15385614.
Proof. by vm_compute. Qed.

(** C3, amended: for a frame of [n_samples > 0] samples, a sample rate in
    (0, 10^9], a frame timestamp not before the stored previous one, and
    clock values in the range of a float, [_handle_pmd_data] calls the
    callback with the timestamps [previous + delta * (i + 1) +
    device_time_delta] of the specification, the device time delta being
    the resynchronised one, and stores the timestamp of the frame as the
    previous frame timestamp of that kind. *)
Theorem handle_pmd_data_timestamps {E : Enums} (now : Z) (data : bytes)
    (self : PolarH10) (kind : NotificationType) (cb : callback)
    (frame_type n_samples sample_rate previous : Z) (processed : samples) :
  let timestamp := int_from_bytes (slice data 1 9) in
  let delta := synched_delta now timestamp (_device_time_delta self) in
  index data 0 = Ok (NotificationType_value kind) →
  index data 9 = Ok frame_type →
  _callbacks self !! kind = Some cb →
  decode_frame (NotificationType_value kind) frame_type (drop 10 data)
  = Bound n_samples processed →
  current_sample_rate self kind = Ok (VInt sample_rate) →
  _p_timestamp self !! kind = Some previous →
  0 < n_samples → 0 < sample_rate ≤ 10 ^ 9 → previous ≤ timestamp →
  Z.abs (now - timestamp - _device_time_delta self) < float_limit →
  timestamp - previous < float_limit →
  _handle_pmd_data now data self
  = (call cb {| time := frame_timestamps n_samples sample_rate timestamp
                          previous delta;
                processed := processed |}
       (set_p_timestamp (<[kind := timestamp]>)
          (set_device_time_delta delta self)),
     Ok ()).
Proof.
  intros timestamp delta H0 H9 Hcb Hdec Hrate Hprev Hn Hsr Hts Hnow Hbound.
  destruct (handle_pmd_data_decoded now data self kind cb frame_type
              H0 H9 Hcb) as (r & _ & Hr & ->).
  { by rewrite Hdec. }
  rewrite (Hr Hnow), Hdec. fold timestamp delta.
  rewrite stateful_bind_lift.
  replace (current_sample_rate (set_device_time_delta delta self) kind)
    with (Ok (VInt sample_rate)) by (by destruct self).
  rewrite stateful_bind_lift.
  rewrite stateful_bind_run. cbn [mret stateful_ret].
  rewrite stateful_bind_run.
  replace (_p_timestamp (set_device_time_delta delta self) !! kind)
    with (Some previous) by (by destruct self).
  cbn [mret stateful_ret].
  rewrite stateful_bind_lift.
  cbn [_device_time_delta set_device_time_delta].
  by rewrite get_timestamps_list_spec.
Qed.

Lemma handle_pmd_data_timestamps_witness :
  let self :=
    {| _callbacks := {[ECG := 7%nat]};
       _p_timestamp := {[ECG := 1000]};
       _config := ∅;
       _current_config := {[ECG := Some [("SAMPLE_RATE", VInt 130)]]};
       _device_time_delta := 0;
       called := [] |} in
  let data := [0; 15; 196; 234; 0; 0; 0; 0; 0; 0; 1; 0; 0; 2; 0; 0] in
  _handle_pmd_data (E:=polar_enums) 95385615 data self
  = (call 7%nat {| time := frame_timestamps 2 130 15385615 1000 0;
                   processed := EcgSamples [1; 2] |}
       (set_p_timestamp (<[ECG := 15385615]>)
          (set_device_time_delta 0 self)),
     Ok ()).
Proof.
  intros self data.
  apply (handle_pmd_data_timestamps (E:=polar_enums) 95385615 data self ECG
           7%nat 0 2 130 1000 (EcgSamples [1; 2])).
  - reflexivity.
  - reflexivity.
  - reflexivity.
  - reflexivity.
  - reflexivity.
  - reflexivity.
  - lia.
  - lia.
  - by vm_compute.
  - by vm_compute.
  - by vm_compute.
Defined.

(** C4, a frame that fails to decode (ECG, frame type 1) and arrives when
    host and device clocks are five seconds apart: the device time delta
    goes from 0 to 5 * 10^9. *)
Lemma handle_pmd_data_failure_resynchronises :
  let self :=
    {| _callbacks := {[ECG := 7%nat]};
       _p_timestamp := {[ECG := 0]};
       _config := ∅;
       _current_config := {[ECG := Some [("SAMPLE_RATE", VInt 130)]]};
       _device_time_delta := 0;
       called := [] |} in
  let data := [0; 0; 0; 0; 0; 0; 0; 0; 0; 1; 1; 0; 0] in
  process_ecg_samples 1 (drop 10 data)
  = Raise (ValueError "Unsupported ecg frame type") ∧
  _device_time_delta
    (_handle_pmd_data (E:=polar_enums) (5 * 10 ^ 9) data self).1 = 5 * 10 ^ 9 ∧
  _device_time_delta
    (_handle_pmd_data (E:=polar_enums) (5 * 10 ^ 9) data self).1
  ≠ _device_time_delta self.
Proof. by vm_compute. Qed.

Lemma handle_pmd_data_decode_failure_state {E : Enums} (now : Z) (data : bytes)
    (self : PolarH10) (kind : NotificationType) (cb : callback)
    (frame_type : Z) :
  index data 0 = Ok (NotificationType_value kind) →
  index data 9 = Ok frame_type →
  _callbacks self !! kind = Some cb →
  decode_frame (NotificationType_value kind) frame_type (drop 10 data)
  = Unbound →
  ∃ e, _handle_pmd_data now data self
       = (set_device_time_delta
            (synched_delta now (int_from_bytes (slice data 1 9))
               (_device_time_delta self)) self,
          Raise e).
Proof.
  intros H0 H9 Hcb Hdec.
  destruct (handle_pmd_data_decoded now data self kind cb frame_type
              H0 H9 Hcb) as (r & _ & _ & ->).
  { by rewrite Hdec. }
  rewrite Hdec. rewrite stateful_bind_lift.
  destruct r as [[]|e]; [|by eexists].
  rewrite stateful_bind_lift.
  destruct (current_sample_rate _ kind); by eexists.
Qed.

(** C4, amended: when the payload of a frame of a kind with a registered
    callback fails to decode, [_handle_pmd_data] leaves the previous frame
    timestamps, the callbacks and the current configurations as they were
    and calls no callback; the device time delta is the resynchronised one
    (the resynchronisation comes before the decoding), so it is unchanged
    when host and device time are within one second. *)
Theorem handle_pmd_data_decode_failure {E : Enums} (now : Z) (data : bytes)
    (self : PolarH10) (kind : NotificationType) (cb : callback)
    (frame_type : Z) :
  index data 0 = Ok (NotificationType_value kind) →
  index data 9 = Ok frame_type →
  _callbacks self !! kind = Some cb →
  decode_frame (NotificationType_value kind) frame_type (drop 10 data)
  = Unbound →
  let self' := (_handle_pmd_data now data self).1 in
  _p_timestamp self' = _p_timestamp self ∧
  called self' = called self ∧
  _callbacks self' = _callbacks self ∧
  _current_config self' = _current_config self ∧
  _device_time_delta self'
  = synched_delta now (int_from_bytes (slice data 1 9)) (_device_time_delta self)
  ∧ (Z.abs (now - int_from_bytes (slice data 1 9) - _device_time_delta self)
     ≤ 10 ^ 9 → _device_time_delta self' = _device_time_delta self).
Proof.
  intros H0 H9 Hcb Hdec.
  destruct (handle_pmd_data_decode_failure_state now data self kind cb
              frame_type H0 H9 Hcb Hdec) as [e ->].
  cbn. repeat split; try done.
  intros Hnear. unfold synched_delta. by rewrite decide_False by lia.
Qed.

Lemma handle_pmd_data_decode_failure_witness :
  let self :=
    {| _callbacks := {[ECG := 7%nat]};
       _p_timestamp := {[ECG := 0]};
       _config := ∅;
       _current_config := {[ECG := Some [("SAMPLE_RATE", VInt 130)]]};
       _device_time_delta := 0;
       called := [] |} in
  let data := [0; 0; 0; 0; 0; 0; 0; 0; 0; 1; 1; 0; 0] in
  _p_timestamp (_handle_pmd_data (E:=polar_enums) 5 data self).1
  = _p_timestamp self.
Proof.
  intros self data.
  apply (handle_pmd_data_decode_failure (E:=polar_enums) 5 data self ECG 7%nat 1);
    reflexivity.
Defined.

(** The handler does not return from such a frame: after the [except]
    clause the locals [n_samples] and [processed] are unbound. *)
Lemma handle_pmd_data_decode_failure_raises {E : Enums} (now : Z) (data : bytes)
    (self : PolarH10) (kind : NotificationType) (cb : callback)
    (frame_type : Z) :
  index data 0 = Ok (NotificationType_value kind) →
  index data 9 = Ok frame_type →
  _callbacks self !! kind = Some cb →
  decode_frame (NotificationType_value kind) frame_type (drop 10 data)
  = Unbound →
  ∃ e, (_handle_pmd_data now data self).2 = Raise e.
Proof.
  intros H0 H9 Hcb Hdec.
  destruct (handle_pmd_data_decode_failure_state now data self kind cb
              frame_type H0 H9 Hcb Hdec) as [e ->].
  by exists e.
Qed.

(** ** Control-point responses: C8 *)

(** C8, a response that echoes the command and the measurement kind and
    reports success, with parameter bytes that start with 255, the wire
    value of no setting: the handler raises and the event is not set. *)
Lemma handle_response_undecodable_parameters :
  let data := [240; 1; 0; 0; 0; 255; 1; 0] in
  index data 1 = Ok (PMDCommand_value (Enums:=polar_enums) GET_MEASUREMENT_SETTINGS) ∧
  index data 2 = Ok 0 ∧
  index data 3 = Ok (PMDStatus_SUCCESS (Enums:=polar_enums)) ∧
  handle_response (E:=polar_enums) GET_MEASUREMENT_SETTINGS 0 data
    (pending (E:=polar_enums))
  = ({| response_status := 0; response_params := []; response_event := false |},
     Raise (ValueError "is not a valid PMDSetting")).
Proof. by vm_compute. Qed.

Section Responses.
Context {E : Enums}.

Lemma PMDStatus_call_member s : PMDStatus_member s = true → PMDStatus_call s = Ok s.
Proof. unfold PMDStatus_call. by intros ->. Qed.

(** C8, amended: a response whose command byte or measurement-kind byte
    differs from the request leaves the transaction as it was, unresolved
    if it was; a response that echoes both, with a defined status byte
    and, on success, parameter bytes that decode, sets the event with the
    status byte as status and the decoded parameters on success, no
    parameters otherwise; when the parameter bytes of a success response
    do not decode, the handler raises and the event is not set. *)
Theorem handle_response_correlation (command : PMDCommand)
    (measurement_type : Z) (data : bytes) (t : transaction) (c : Z) :
  index data 1 = Ok c →
  (c ≠ PMDCommand_value command →
   handle_response command measurement_type data t = (t, Ok ())) ∧
  (∀ m, c = PMDCommand_value command → index data 2 = Ok m →
        m ≠ measurement_type →
        handle_response command measurement_type data t = (t, Ok ())) ∧
  (∀ status, c = PMDCommand_value command →
     index data 2 = Ok measurement_type → index data 3 = Ok status →
     PMDStatus_member status = true → response_params t = [] →
     (status ≠ PMDStatus_SUCCESS →
      handle_response command measurement_type data t
      = ({| response_status := status; response_params := [];
            response_event := true |}, Ok ())) ∧
     (∀ params, status = PMDStatus_SUCCESS →
        deserialize_pmd_parameters (drop 5 data) = Ok params →
        handle_response command measurement_type data t
        = ({| response_status := status; response_params := params;
              response_event := true |}, Ok ())) ∧
     (∀ e, status = PMDStatus_SUCCESS →
        deserialize_pmd_parameters (drop 5 data) = Raise e →
        handle_response command measurement_type data t
        = ({| response_status := status; response_params := [];
              response_event := response_event t |}, Raise e))).
Proof.
  intros H1. unfold handle_response.
  rewrite stateful_bind_lift, H1. split; [|split].
  - intros Hc. by rewrite decide_True.
  - intros m -> H2 Hm. rewrite decide_False by (by intros ?).
    rewrite stateful_bind_run, stateful_bind_lift, H2. cbn.
    by rewrite bool_decide_true.
  - intros status -> H2 H3 Hmem Hparams.
    rewrite decide_False by (by intros ?).
    rewrite stateful_bind_run, stateful_bind_lift, H2. cbn.
    rewrite bool_decide_false by (by intros ?).
    rewrite stateful_bind_lift, H3.
    rewrite stateful_bind_lift, PMDStatus_call_member by done.
    rewrite stateful_bind_run. cbn [update].
    split; [|split].
    + intros Hne. rewrite decide_False by done. cbn. by rewrite Hparams.
    + intros params Hs Hdec. rewrite decide_True by done.
      by rewrite stateful_bind_run, stateful_bind_lift, Hdec.
    + intros e Hs Hdec. rewrite decide_True by done.
      rewrite stateful_bind_run, stateful_bind_lift, Hdec. cbn.
      by rewrite Hparams.
Qed.

(** Without a response that sets the event the request times out and
    answers the invalid-state status with no parameters. *)
Lemma request_result_pending :
  request_result pending = (PMDStatus_ERROR_INVALID_STATE, []).
Proof. reflexivity. Qed.

Lemma request_result_resolved status params :
  request_result {| response_status := status; response_params := params;
                    response_event := true |} = (status, params).
Proof. reflexivity. Qed.

End Responses.

Lemma handle_response_correlation_witness :
  handle_response (E:=polar_enums) GET_MEASUREMENT_SETTINGS 0
    [240; 1; 0; 0; 0; 0; 2; 130; 0; 200; 0] (pending (E:=polar_enums))
  = ({| response_status := 0;
        response_params := [("SAMPLE_RATE", VList [130; 200])];
        response_event := true |}, Ok ()).
Proof.
  pose proof (handle_response_correlation (E:=polar_enums)
                GET_MEASUREMENT_SETTINGS 0
                [240; 1; 0; 0; 0; 0; 2; 130; 0; 200; 0]
                (pending (E:=polar_enums)) 1 eq_refl) as (_ & _ & Hmatch).
  destruct (Hmatch 0 eq_refl eq_refl eq_refl eq_refl eq_refl) as (_ & Hok & _).
  apply Hok; reflexivity.
Defined.

(** ** Registration and removal: C7 and C5 *)

Section Lifecycle.
Context {E : Enums}.

Local Ltac run_method H :=
  unfold register_notification, remove_notification, del_item, mbind,
    stateful_bind, get_state, update, lift, raise, try_except, mret,
    stateful_ret in H.

(** [del] of a key that is there, and of a key that is not. *)
Lemma del_item_present {V} (field : PolarH10 → gmap NotificationType V)
    set_field key self :
  is_Some (field self !! key) →
  del_item field set_field key self = (set_field (delete key) self, Ok ()).
Proof.
  intros [v Hv]. unfold del_item, mbind, stateful_bind, get_state, update.
  by rewrite Hv, decide_False.
Qed.

Lemma del_item_missing {V} (field : PolarH10 → gmap NotificationType V)
    set_field key self :
  field self !! key = None →
  del_item field set_field key self = (self, Raise KeyError).
Proof.
  intros Hv. unfold del_item, mbind, stateful_bind, get_state, raise.
  by rewrite decide_True.
Qed.

(** What a registration that returns has done. *)
Lemma register_notification_ok env kind cb parameters self self1 :
  register_notification env kind cb parameters self = (self1, Ok ()) →
  _config self1 = _config self ∧
  is_Some (_config self !! kind) ∧
  _callbacks self !! kind = None ∧
  _callbacks self1 = <[kind := cb]> (_callbacks self).
Proof.
  intros Hreg. run_method Hreg.
  destruct (decide (_config self !! kind = None)) as [|Hconfig]; [done|].
  destruct (decide (is_Some (_callbacks self !! kind))) as [|Hfree]; [done|].
  apply eq_None_not_Some in Hfree.
  assert (is_Some (_config self !! kind)) as Hsome.
  { by apply not_eq_None_Some. }
  destruct (_validate_pmd_parameters kind (_config self) parameters)
    as [valid_params|]; [|done].
  repeat case_match; simplify_eq/=; done.
Qed.

(** C7: a registration of a kind that is registered (a supported kind
    with a callback in the table, whatever else has happened to the
    object since) raises the already-registered error and leaves the
    object as it was; the object that a registration has returned is in
    that case; and when the START_MEASUREMENT request of a registration
    answers a status other than success, the registration raises
    [PolarH10Error] and leaves the callbacks as they were before the call,
    with no callback and no current configuration for the kind. *)
Theorem register_notification_atomic (env : transport)
    (kind : NotificationType) (cb : callback) (parameters : option pydict)
    (self : PolarH10) :
  (is_Some (_config self !! kind) → is_Some (_callbacks self !! kind) →
   register_notification env kind cb parameters self
   = (self, Raise (ValueError "Notification already registered for this type")))
  ∧
  (∀ self1 env' cb' parameters',
     register_notification env kind cb parameters self = (self1, Ok ()) →
     is_Some (_config self1 !! kind) ∧ is_Some (_callbacks self1 !! kind) ∧
     register_notification env' kind cb' parameters' self1
     = (self1, Raise (ValueError "Notification already registered for this type")))
  ∧
  (∀ valid_params payload status params,
     is_Some (_config self !! kind) →
     _callbacks self !! kind = None →
     kind = ECG ∨ kind = ACC →
     _validate_pmd_parameters kind (_config self) parameters = Ok valid_params →
     serialize_valid_params valid_params = Ok payload →
     _pmd_control_point_request env START_MEASUREMENT
       (NotificationType_value kind) payload = Ok (status, params) →
     status ≠ PMDStatus_SUCCESS →
     ∃ self',
       register_notification env kind cb parameters self
       = (self', Raise (command_failed status)) ∧
       _callbacks self' = _callbacks self ∧
       _callbacks self' !! kind = None ∧
       _current_config self' !! kind = None).
Proof.
  assert (∀ env cb parameters s,
            is_Some (_config s !! kind) → is_Some (_callbacks s !! kind) →
            register_notification env kind cb parameters s
            = (s, Raise (ValueError
                           "Notification already registered for this type")))
    as Hregistered.
  { intros env0 cb0 parameters0 s Hconfig Hcb.
    unfold register_notification, mbind, stateful_bind, get_state, raise.
    rewrite decide_False by (by apply not_eq_None_Some).
    by rewrite decide_True by done. }
  split; [apply Hregistered|]. split.
  - intros self1 env' cb' parameters' Hreg.
    apply register_notification_ok in Hreg as (Hconfig & Hsome & _ & Hcb).
    assert (is_Some (_callbacks self1 !! kind)) as Hthere.
    { rewrite Hcb, lookup_insert_eq. by eexists. }
    rewrite Hconfig. split; [done|]. split; [done|].
    apply Hregistered; [by rewrite Hconfig|done].
  - intros valid_params payload status params Hsome Hfree Hkind Hvalid Hpayload
      Hanswer Hstatus.
    unfold register_notification, mbind, stateful_bind, get_state, update,
      lift, raise, try_except, mret, stateful_ret.
    rewrite decide_False by (by apply not_eq_None_Some).
    rewrite decide_False by (rewrite Hfree; by intros [? ?]).
    rewrite Hvalid.
    assert (PMDMeasurement_call (NotificationType_value kind)
            = Ok (NotificationType_value kind)) as ->.
    { unfold PMDMeasurement_call.
      destruct Hkind as [-> | ->]; simpl;
        by rewrite ?PMDMeasurement_ECG, ?PMDMeasurement_ACC. }
    rewrite decide_False by (destruct Hkind as [-> | ->]; done).
    rewrite decide_False by (destruct Hkind as [-> | ->]; simpl; lia).
    rewrite Hpayload, Hanswer, decide_True by done.
    rewrite del_item_present
      by (cbn [_callbacks set_p_timestamp set_current_config set_callbacks];
          rewrite lookup_insert_eq; by eexists).
    rewrite del_item_present
      by (cbn [_current_config set_p_timestamp set_current_config
               set_callbacks]; rewrite lookup_insert_eq; by eexists).
    eexists. split; [reflexivity|]. cbn.
    rewrite delete_insert_id by done.
    by rewrite lookup_delete_eq.
Qed.

(** A removal that returns has removed the callback and the current
    configuration of an ECG or accelerometer stream. *)
Lemma remove_notification_pmd env kind self self1 :
  kind = ECG ∨ kind = ACC →
  remove_notification env kind self = (self1, Ok ()) →
  _callbacks self1 !! kind = None ∧ _current_config self1 !! kind = None.
Proof.
  intros Hkind Hrem. run_method Hrem.
  destruct Hkind as [-> | ->];
    repeat case_match; simplify_eq/=; by rewrite !lookup_delete_eq.
Qed.

(** C5, at a kind without PMD commands: after [remove_notification] has
    returned, the callback is still attached and a new registration raises
    the already-registered error.  For [DISCONNECT] whatever the transport
    answers, for [HEAR_RATE] when [start_notify] succeeds. *)
Theorem remove_notification_keeps_callback (env : transport)
    (cb cb' : callback) (parameters parameters' : option pydict) :
  let registered kind :=
    (register_notification env kind cb parameters PolarH10_init).1 in
  let removed kind := (remove_notification env kind (registered kind)).1 in
  (∀ kind, kind = DISCONNECT ∨
           (kind = HEAR_RATE ∧ start_notify_heart_rate env = Ok ()) →
     register_notification env kind cb parameters PolarH10_init
     = (registered kind, Ok ()) ∧
     remove_notification env kind (registered kind) = (removed kind, Ok ()) ∧
     _callbacks (removed kind) !! kind = Some cb ∧
     register_notification env kind cb' parameters' (removed kind)
     = (removed kind,
        Raise (ValueError "Notification already registered for this type"))).
Proof.
  intros registered removed kind [-> | [-> Hstart]];
    subst registered removed;
    unfold register_notification, remove_notification, mbind, stateful_bind,
      get_state, update, lift, raise, try_except, mret, stateful_ret;
    cbn; rewrite ?Hstart; cbn; done.
Qed.

End Lifecycle.

Lemma register_notification_atomic_witness :
  let env := {| start_notify_heart_rate := Ok ();
                _pmd_control_point_request := λ _ _ _, Ok (12, []) |} in
  let self :=
    {| _callbacks := ∅; _p_timestamp := ∅;
       _config := {[ECG := [("SAMPLE_RATE", VInt 130)]]};
       _current_config := ∅; _device_time_delta := 0; called := [] |} in
  let streaming :=
    {| _callbacks := {[ECG := 7%nat]}; _p_timestamp := {[ECG := 15385615]};
       _config := {[ECG := [("SAMPLE_RATE", VInt 130)]]};
       _current_config := {[ECG := Some [("SAMPLE_RATE", VInt 130)]]};
       _device_time_delta := 5; called := [] |} in
  register_notification (E:=polar_enums) env ECG 8%nat None streaming
  = (streaming,
     Raise (ValueError "Notification already registered for this type")) ∧
  ∃ self',
    register_notification (E:=polar_enums) env ECG 7%nat None self
    = (self', Raise (command_failed (E:=polar_enums) 12)) ∧
    _callbacks self' = _callbacks self ∧
    _callbacks self' !! ECG = None ∧
    _current_config self' !! ECG = None.
Proof.
  intros env self streaming. split.
  - pose proof (register_notification_atomic (E:=polar_enums) env ECG 8%nat
                  None streaming) as [Hregistered _].
    apply Hregistered; by eexists.
  - pose proof (register_notification_atomic (E:=polar_enums) env ECG 7%nat
                  None self) as (_ & _ & Hrollback).
    apply Hrollback with (valid_params := Some [("SAMPLE_RATE", VInt 130)])
                         (payload := [0; 1; 130; 0]) (params := []).
    + by eexists.
    + reflexivity.
    + by left.
    + reflexivity.
    + reflexivity.
    + reflexivity.
    + discriminate.
Defined.

Lemma remove_notification_keeps_callback_witness :
  let env := {| start_notify_heart_rate := Ok ();
                _pmd_control_point_request := λ _ _ _, Ok (0, []) |} in
  let self := (register_notification (E:=polar_enums) env HEAR_RATE 7%nat None
                 PolarH10_init).1 in
  let self' := (remove_notification (E:=polar_enums) env HEAR_RATE self).1 in
  _callbacks self' !! HEAR_RATE = Some 7%nat.
Proof.
  intros env self self'.
  apply (remove_notification_keeps_callback (E:=polar_enums) env 7%nat 8%nat
           None None HEAR_RATE).
  right. by split.
Defined.

(** * Further properties *)

(** ** [iter_batched] *)

Lemma batches_step fuel (data : bytes) n strict :
  data ≠ [] →
  batches (S fuel) data n strict
  = if strict && negb (length (take n data) =? n)%nat
    then Raise (ValueError "batched(): incomplete batch")
    else rest ← batches fuel (drop n data) n strict;
         Ok (take n data :: rest).
Proof. by destruct data. Qed.

Lemma batches_concat fuel (bs : list bytes) n strict :
  (0 < n)%nat → Forall (λ b : bytes, length b = n) bs →
  (length (concat bs) ≤ fuel)%nat →
  batches fuel (concat bs) n strict = Ok bs.
Proof.
  intros Hn Hbs. revert fuel.
  induction Hbs as [|b bs Hb _ IH]; intros fuel Hfuel.
  - by destruct fuel.
  - simpl in Hfuel. rewrite length_app in Hfuel.
    destruct fuel as [|fuel]; [lia|].
    cbn [concat]. rewrite batches_step.
    + assert (take n (b ++ concat bs) = b) as ->.
      { rewrite <- Hb. apply take_app_length. }
      assert (drop n (b ++ concat bs) = concat bs) as ->.
      { rewrite <- Hb. apply drop_app_length. }
      rewrite Hb, Nat.eqb_refl, andb_false_r.
      by rewrite IH by lia.
    + intros Heq. apply (f_equal length) in Heq.
      rewrite length_app in Heq. simpl in Heq. lia.
Qed.

Lemma chunks_exist n k (data : bytes) :
  length data = (k * n)%nat →
  ∃ bs : list bytes, concat bs = data ∧ Forall (λ b : bytes, length b = n) bs ∧
                     length bs = k.
Proof.
  revert data. induction k as [|k IH]; intros data Hlen.
  - exists []. destruct data; [done|simpl in Hlen; lia].
  - destruct (IH (drop n data)) as (bs & Hcat & Hall & Hk).
    { rewrite length_drop. lia. }
    exists (take n data :: bs). simpl. rewrite Hcat, take_drop.
    repeat split; [|by rewrite Hk].
    constructor; [|done]. rewrite length_take. lia.
Qed.

Lemma batches_incomplete fuel (data : bytes) n :
  (0 < n)%nat → (length data ≤ fuel)%nat → (length data `mod` n ≠ 0)%nat →
  batches fuel data n true = Raise (ValueError "batched(): incomplete batch").
Proof.
  intros Hn. revert data.
  induction fuel as [|fuel IH]; intros data Hfuel Hmod.
  - destruct data; [|simpl in Hfuel; lia]. simpl in Hmod.
    by rewrite Nat.Div0.mod_0_l in Hmod.
  - assert (data ≠ []) as Hne.
    { intros ->. simpl in Hmod. by rewrite Nat.Div0.mod_0_l in Hmod. }
    rewrite batches_step by done.
    destruct (decide (length data < n)%nat) as [Hshort|Hlong].
    + rewrite take_ge by lia.
      by rewrite (proj2 (Nat.eqb_neq _ _)) by lia.
    + rewrite length_take, Nat.min_l by lia. rewrite Nat.eqb_refl. simpl.
      rewrite IH; [done| |].
      * rewrite length_drop. lia.
      * rewrite length_drop.
        replace (length data) with ((length data - n) + 1 * n)%nat in Hmod by lia.
        by rewrite Nat.Div0.mod_add in Hmod.
Qed.

Lemma batches_loose fuel (data : bytes) n :
  (0 < n)%nat → (length data ≤ fuel)%nat →
  ∃ bs : list bytes,
    batches fuel data n false = Ok bs ∧ concat bs = data ∧
    Forall (λ b : bytes, (0 < length b ≤ n)%nat) bs.
Proof.
  intros Hn. revert data.
  induction fuel as [|fuel IH]; intros data Hfuel.
  - destruct data; [|simpl in Hfuel; lia]. by exists [].
  - destruct (decide (data = [])) as [->|Hne]; [by exists []|].
    rewrite batches_step by done. cbn [andb].
    destruct (IH (drop n data)) as (bs & -> & Hcat & Hall).
    { rewrite length_drop. lia. }
    exists (take n data :: bs). simpl. rewrite Hcat, take_drop.
    repeat split. constructor; [|done].
    rewrite length_take. destruct data; [done|simpl; lia].
Qed.

(** X1: for [n >= 1], [iter_batched(data, n)] without [strict] never
    raises; its batches, put end to end, are [data], and every batch has
    between 1 and [n] elements.  For [n < 1] it raises [ValueError]. *)
Theorem iter_batched_loose (data : bytes) (n : Z) :
  (n < 1 → iter_batched data n false
           = Raise (ValueError "n must be at least one")) ∧
  (1 ≤ n →
   ∃ bs : list bytes,
     iter_batched data n false = Ok bs ∧ concat bs = data ∧
     Forall (λ b : bytes, 0 < Z.of_nat (length b) ≤ n) bs).
Proof.
  unfold iter_batched. split; intros Hn.
  - by rewrite decide_True.
  - rewrite decide_False by lia.
    destruct (batches_loose (length data) data (Z.to_nat n))
      as (bs & Hbs & Hcat & Hall); [lia|lia|].
    exists bs. repeat split; [done|done|].
    eapply Forall_impl; [exact Hall|]. intros b Hb. simpl in Hb. lia.
Qed.

Lemma iter_batched_loose_witness :
  ∃ bs : list bytes,
    iter_batched [1; 2; 3; 4; 5] 2 false = Ok bs ∧ concat bs = [1; 2; 3; 4; 5] ∧
    Forall (λ b : bytes, 0 < Z.of_nat (length b) ≤ 2) bs.
Proof. apply (iter_batched_loose [1; 2; 3; 4; 5] 2). lia. Defined.

Lemma iter_batched_divisible (data : bytes) (n : Z) :
  1 ≤ n → Z.of_nat (length data) `mod` n = 0 →
  ∃ bs : list bytes,
    iter_batched data n true = Ok bs ∧ concat bs = data ∧
    Forall (λ b : bytes, Z.of_nat (length b) = n) bs ∧
    Z.of_nat (length bs) = Z.of_nat (length data) `div` n.
Proof.
  intros Hn Hdiv. unfold iter_batched. rewrite decide_False by lia.
  assert (Z.of_nat (length data `mod` Z.to_nat n)
          = Z.of_nat (length data) `mod` n) as Hmod.
  { rewrite Nat2Z.inj_mod. f_equal. lia. }
  destruct (chunks_exist (Z.to_nat n) (length data / Z.to_nat n) data)
    as (bs & Hcat & Hall & Hlen).
  { pose proof (Nat.div_mod_eq (length data) (Z.to_nat n)). lia. }
  exists bs. rewrite <- Hcat at 2.
  rewrite batches_concat by (done || lia || (rewrite Hcat; lia)).
  repeat split; [done| |].
  - eapply Forall_impl; [exact Hall|]. intros b Hb. simpl in Hb. lia.
  - rewrite Hlen, Nat2Z.inj_div. f_equal. lia.
Qed.

Lemma iter_batched_indivisible (data : bytes) (n : Z) :
  1 ≤ n → Z.of_nat (length data) `mod` n ≠ 0 →
  iter_batched data n true = Raise (ValueError "batched(): incomplete batch").
Proof.
  intros Hn Hdiv. unfold iter_batched. rewrite decide_False by lia.
  assert (Z.of_nat (length data `mod` Z.to_nat n)
          = Z.of_nat (length data) `mod` n) as Hmod.
  { rewrite Nat2Z.inj_mod. f_equal. lia. }
  apply batches_incomplete; lia.
Qed.

(** X2: for [n >= 1], [iter_batched(data, n, strict=True)] returns exactly
    when [n] divides [len(data)], with [len(data) / n] batches of [n]
    elements each that make up [data]; otherwise it raises [ValueError]. *)
Theorem iter_batched_strict (data : bytes) (n : Z) :
  1 ≤ n →
  (Z.of_nat (length data) `mod` n = 0 →
   ∃ bs : list bytes,
     iter_batched data n true = Ok bs ∧ concat bs = data ∧
     Forall (λ b : bytes, Z.of_nat (length b) = n) bs ∧
     Z.of_nat (length bs) = Z.of_nat (length data) `div` n) ∧
  (Z.of_nat (length data) `mod` n ≠ 0 →
   iter_batched data n true = Raise (ValueError "batched(): incomplete batch")).
Proof.
  intros Hn. split; intros Hdiv.
  - by apply iter_batched_divisible.
  - by apply iter_batched_indivisible.
Qed.

Lemma iter_batched_strict_witness :
  iter_batched [1; 2; 3; 4; 5] 2 true
  = Raise (ValueError "batched(): incomplete batch").
Proof. apply (iter_batched_strict [1; 2; 3; 4; 5] 2); [lia|done]. Defined.

(** ** Frame decoders *)

Lemma int_from_bytes_bound (bs : bytes) :
  Forall (λ b, 0 ≤ b < 256) bs →
  0 ≤ int_from_bytes bs < 256 ^ Z.of_nat (length bs).
Proof.
  induction 1 as [|b bs Hb _ IH]; [simpl; lia|].
  cbn [int_from_bytes length]. rewrite Nat2Z.inj_succ, Z.pow_succ_r by lia. lia.
Qed.

Lemma int_from_bytes_signed_bound (bs : bytes) :
  Forall (λ b, 0 ≤ b < 256) bs →
  - 256 ^ Z.of_nat (length bs) ≤ 2 * int_from_bytes_signed bs
  < 256 ^ Z.of_nat (length bs).
Proof.
  intros Hbs. apply int_from_bytes_bound in Hbs.
  unfold int_from_bytes_signed. case_decide; [lia|].
  destruct (decide (bs = [])) as [->|]; [simpl in *; lia|].
  assert (¬ 256 ^ Z.of_nat (length bs) ≤ 2 * int_from_bytes bs) by tauto. lia.
Qed.

Lemma int_from_bytes_signed_le n x :
  (0 < n)%nat → - 256 ^ Z.of_nat n ≤ 2 * x < 256 ^ Z.of_nat n →
  int_from_bytes_signed (le_bytes n (x `mod` 256 ^ Z.of_nat n)) = x.
Proof.
  intros Hn Hx. unfold int_from_bytes_signed.
  assert (0 < 256 ^ Z.of_nat n) as Hw by (apply Z.pow_pos_nonneg; lia).
  rewrite int_from_le_bytes by (apply Z.mod_pos_bound; lia).
  rewrite le_bytes_length.
  destruct (decide (0 ≤ x)) as [Hpos|Hneg].
  - rewrite Z.mod_small by lia. rewrite decide_False; [done|]. lia.
  - assert (x `mod` 256 ^ Z.of_nat n = x + 256 ^ Z.of_nat n) as ->.
    { symmetry. apply Z.mod_unique_pos with (q := -1); lia. }
    rewrite decide_True; [lia|]. split; [|lia].
    intros Hnil. apply (f_equal length) in Hnil.
    rewrite le_bytes_length in Hnil. simpl in Hnil. lia.
Qed.

Lemma int_to_bytes_signed_ok x n bs :
  int_to_bytes_signed x n = Ok bs →
  bs = le_bytes n (x `mod` 256 ^ Z.of_nat n) ∧ length bs = n ∧
  - 256 ^ Z.of_nat n ≤ 2 * x < 256 ^ Z.of_nat n.
Proof.
  unfold int_to_bytes_signed. cbv zeta. case_decide; [|done].
  intros [= <-]. by rewrite le_bytes_length.
Qed.

Lemma ecg_frame_chunks lead_1 data :
  ecg_frame lead_1 = Ok data →
  ∃ bs : list bytes,
    data = concat bs ∧ Forall (λ b : bytes, length b = 3%nat) bs ∧
    int_from_bytes_signed <$> bs = lead_1.
Proof.
  revert data. induction lead_1 as [|x rest IH]; intros data Hframe.
  - injection Hframe as <-. by exists [].
  - cbn [ecg_frame] in Hframe.
    destruct (int_to_bytes_signed x 3) as [b|] eqn:Hb; [|done].
    destruct (ecg_frame rest) as [frame|]; [|done].
    injection Hframe as <-.
    destruct (IH frame eq_refl) as (bs & -> & Hall & Hdec).
    apply int_to_bytes_signed_ok in Hb as (-> & Hlen & Hx).
    eexists (_ :: bs). split; [reflexivity|]. split; [by constructor|].
    rewrite fmap_cons, Hdec. f_equal.
    by apply int_from_bytes_signed_le; [lia|].
Qed.

(** X3: [process_ecg_samples] raises for every frame type other than 0 and
    for every payload whose length is not a multiple of 3; otherwise it
    returns [len(data) / 3] as number of samples and that many values, each
    in the range of a signed 24-bit integer. *)
Theorem process_ecg_samples_result (frame_type : Z) (data : bytes) :
  Forall (λ b, 0 ≤ b < 256) data →
  (frame_type ≠ 0 →
   process_ecg_samples frame_type data
   = Raise (ValueError "Unsupported ecg frame type")) ∧
  (frame_type = 0 → Z.of_nat (length data) `mod` 3 ≠ 0 →
   process_ecg_samples frame_type data
   = Raise (ValueError "batched(): incomplete batch")) ∧
  (frame_type = 0 → Z.of_nat (length data) `mod` 3 = 0 →
   ∃ lead_1,
     process_ecg_samples frame_type data
     = Ok (Z.of_nat (length data) `div` 3, EcgSamples lead_1) ∧
     Z.of_nat (length lead_1) = Z.of_nat (length data) `div` 3 ∧
     Forall (λ v, - 2 ^ 23 ≤ v < 2 ^ 23) lead_1).
Proof.
  intros Hbytes. unfold process_ecg_samples.
  pose proof (iter_batched_divisible data 3 ltac:(lia)) as Hok.
  pose proof (iter_batched_indivisible data 3 ltac:(lia)) as Hbad.
  split; [|split].
  - intros Hft. by rewrite decide_True.
  - intros -> Hmod. rewrite decide_False by (by intros ?).
    by rewrite Hbad.
  - intros -> Hmod. rewrite decide_False by (by intros ?).
    destruct (Hok Hmod) as (bs & -> & Hcat & Hall & Hlen).
    cbn [mbind result_bind]. eexists. split; [by rewrite Hlen|].
    split; [by rewrite length_fmap|].
    apply Forall_fmap. rewrite Forall_forall in Hall.
    apply Forall_forall. intros b Hb. simpl.
    assert (Forall (λ b, 0 ≤ b < 256) b) as Hbb.
    { rewrite <- Hcat in Hbytes. rewrite Forall_concat, Forall_forall in Hbytes.
      by apply Hbytes. }
    apply int_from_bytes_signed_bound in Hbb.
    specialize (Hall b Hb). simpl in Hall.
    replace (Z.of_nat (length b)) with 3 in Hbb by lia.
    change (256 ^ 3) with (2 * 2 ^ 23) in Hbb. lia.
Qed.

Lemma process_ecg_samples_result_witness :
  process_ecg_samples 0 [1; 0; 0; 255; 255]
  = Raise (ValueError "batched(): incomplete batch").
Proof.
  apply (process_ecg_samples_result 0 [1; 0; 0; 255; 255]).
  - repeat constructor; lia.
  - reflexivity.
  - by vm_compute.
Defined.

(** X4: the ECG decoder inverts the encoding that the tests use: a frame
    made of the signed 3-byte little-endian encodings of [lead_1] is
    decoded, with frame type 0, to [len(lead_1)] samples equal to
    [lead_1]. *)
Theorem process_ecg_samples_round_trip (lead_1 : list Z) (data : bytes) :
  ecg_frame lead_1 = Ok data →
  process_ecg_samples 0 data
  = Ok (Z.of_nat (length lead_1), EcgSamples lead_1).
Proof.
  intros Hframe.
  destruct (ecg_frame_chunks lead_1 data Hframe) as (bs & -> & Hall & <-).
  unfold process_ecg_samples, iter_batched.
  rewrite decide_False by (by intros ?). rewrite decide_False by lia.
  rewrite batches_concat by (done || lia).
  cbn [mbind result_bind]. by rewrite length_fmap.
Qed.

Lemma process_ecg_samples_round_trip_witness :
  process_ecg_samples 0 [24; 252; 255; 0; 0; 0; 132; 3; 0]
  = Ok (3, EcgSamples [-1000; 0; 900]).
Proof.
  apply (process_ecg_samples_round_trip [-1000; 0; 900]). reflexivity.
Defined.

Lemma process_acc_frame_chunks sample_size (bx by_ bz : bytes) r :
  1 ≤ sample_size →
  length bx = Z.to_nat sample_size → length by_ = Z.to_nat sample_size →
  length bz = Z.to_nat sample_size →
  process_acc_frame sample_size r (bx ++ by_ ++ bz)
  = Ok (acc_append
          (acc_append (acc_append r AxisX (int_from_bytes_signed bx))
             AxisY (int_from_bytes_signed by_))
          AxisZ (int_from_bytes_signed bz)).
Proof.
  intros Hsize Hx Hy Hz. unfold process_acc_frame, iter_batched.
  rewrite decide_False by lia.
  pose proof (batches_concat (length (bx ++ by_ ++ bz)) [bx; by_; bz]
                (Z.to_nat sample_size) true) as Hb.
  cbn [concat] in Hb. rewrite app_nil_r in Hb.
  rewrite Hb; [done|lia| |done].
  repeat constructor; done.
Qed.

Lemma process_acc_frame_length sample_size (frame : bytes) r :
  1 ≤ sample_size → length frame = Z.to_nat (sample_size * 3) →
  ∃ vx vy vz,
    process_acc_frame sample_size r frame
    = Ok (acc_append (acc_append (acc_append r AxisX vx) AxisY vy) AxisZ vz).
Proof.
  intros Hsize Hlen.
  destruct (chunks_exist (Z.to_nat sample_size) 3 frame)
    as (bs & <- & Hall & Hbs); [lia|].
  destruct bs as [|bx [|by_ [|bz [|]]]]; try done.
  apply Forall_cons in Hall as [Hx Hall].
  apply Forall_cons in Hall as [Hy Hall].
  apply Forall_cons in Hall as [Hz _].
  cbn [concat]. rewrite app_nil_r. do 3 eexists.
  by apply process_acc_frame_chunks.
Qed.

Lemma process_acc_frames_length sample_size (frames : list bytes) x y z :
  1 ≤ sample_size →
  Forall (λ f : bytes, length f = Z.to_nat (sample_size * 3)) frames →
  ∃ x' y' z',
    process_acc_frames sample_size frames (x, y, z) = Ok (x', y', z') ∧
    length x' = (length x + length frames)%nat ∧
    length y' = (length y + length frames)%nat ∧
    length z' = (length z + length frames)%nat.
Proof.
  intros Hsize Hall. revert x y z.
  induction Hall as [|f frames Hf _ IH]; intros x y z.
  - exists x, y, z. simpl. repeat split; lia.
  - cbn [process_acc_frames].
    destruct (process_acc_frame_length sample_size f (x, y, z) Hsize Hf)
      as (vx & vy & vz & ->).
    cbn [mbind result_bind acc_append].
    destruct (IH (x ++ [vx]) (y ++ [vy]) (z ++ [vz]))
      as (x' & y' & z' & -> & Hx & Hy & Hz).
    exists x', y', z'. rewrite !length_app in *. simpl in *.
    repeat split; lia.
Qed.

(** X5: [process_acc_samples] raises for a frame type outside 0..2 and for
    a payload whose length is not a multiple of [3 * (frame_type + 1)];
    otherwise it returns [len(data) / (3 * (frame_type + 1))] as number of
    samples and three axes of that many values each. *)
Theorem process_acc_samples_result (frame_type : Z) (data : bytes) :
  (frame_type < 0 ∨ 2 < frame_type →
   process_acc_samples frame_type data
   = Raise (ValueError "Unsupported acc frame type")) ∧
  (0 ≤ frame_type ≤ 2 →
   Z.of_nat (length data) `mod` (3 * (frame_type + 1)) ≠ 0 →
   process_acc_samples frame_type data
   = Raise (ValueError "batched(): incomplete batch")) ∧
  (0 ≤ frame_type ≤ 2 →
   Z.of_nat (length data) `mod` (3 * (frame_type + 1)) = 0 →
   ∃ x y z,
     let n := Z.of_nat (length data) `div` (3 * (frame_type + 1)) in
     process_acc_samples frame_type data = Ok (n, AccSamples x y z) ∧
     Z.of_nat (length x) = n ∧ Z.of_nat (length y) = n ∧
     Z.of_nat (length z) = n).
Proof.
  unfold process_acc_samples. split; [|split].
  - intros Hft. by rewrite decide_True.
  - intros Hft Hmod. rewrite decide_False by lia.
    pose proof (iter_batched_indivisible data ((frame_type + 1) * 3)
                  ltac:(lia)) as Hbad.
    rewrite Hbad; [done|]. by replace ((frame_type + 1) * 3)
      with (3 * (frame_type + 1)) by lia.
  - intros Hft Hmod. rewrite decide_False by lia.
    pose proof (iter_batched_divisible data ((frame_type + 1) * 3)
                  ltac:(lia)) as Hok.
    replace ((frame_type + 1) * 3) with (3 * (frame_type + 1)) in Hok by lia.
    destruct (Hok Hmod) as (frames & Hframes & _ & Hall & Hlen).
    replace ((frame_type + 1) * 3) with (3 * (frame_type + 1)) by lia.
    rewrite Hframes. cbn [mbind result_bind].
    destruct (process_acc_frames_length (frame_type + 1) frames [] [] [])
      as (x & y & z & -> & Hx & Hy & Hz); [lia| |].
    { eapply Forall_impl; [exact Hall|]. intros f Hf. simpl in Hf. lia. }
    cbn [mbind result_bind]. exists x, y, z. simpl in *.
    rewrite <- Hlen. repeat split; lia.
Qed.

Lemma process_acc_samples_result_witness :
  process_acc_samples 1 [1; 0; 2; 0; 3; 0; 255; 255; 254; 255; 0]
  = Raise (ValueError "batched(): incomplete batch").
Proof.
  apply (process_acc_samples_result 1 [1; 0; 2; 0; 3; 0; 255; 255; 254; 255; 0]).
  - lia.
  - by vm_compute.
Defined.

Lemma acc_frame_frames size xyz data :
  (0 < size)%nat → acc_frame size xyz = Ok data →
  ∃ frames : list bytes,
    data = concat frames ∧
    Forall (λ f : bytes, length f = (3 * size)%nat) frames ∧
    length frames = length xyz ∧
    ∀ x y z,
      process_acc_frames (Z.of_nat size) frames (x, y, z)
      = Ok (x ++ xyz.*1.*1, y ++ xyz.*1.*2, z ++ xyz.*2).
Proof.
  intros Hsize. revert data.
  induction xyz as [|[[vx vy] vz] rest IH]; intros data Hframe.
  - injection Hframe as <-. exists []. repeat split; [done|].
    intros x y z. simpl. by rewrite !app_nil_r.
  - cbn [acc_frame] in Hframe.
    destruct (int_to_bytes_signed vx size) as [bx|] eqn:Hx; [|done].
    destruct (int_to_bytes_signed vy size) as [by_|] eqn:Hy; [|done].
    destruct (int_to_bytes_signed vz size) as [bz|] eqn:Hz; [|done].
    destruct (acc_frame size rest) as [frame|]; [|done].
    injection Hframe as <-.
    destruct (IH frame eq_refl) as (frames & -> & Hall & Hlen & Hdec).
    apply int_to_bytes_signed_ok in Hx as (Hbx & Hlx & Hrx).
    apply int_to_bytes_signed_ok in Hy as (Hby & Hly & Hry).
    apply int_to_bytes_signed_ok in Hz as (Hbz & Hlz & Hrz).
    exists ((bx ++ by_ ++ bz) :: frames). split.
    { cbn [concat]. by rewrite <- !app_assoc. }
    split; [constructor; [rewrite !length_app; lia|done]|].
    split; [simpl; lia|].
    intros x y z. cbn [process_acc_frames].
    rewrite (process_acc_frame_chunks (Z.of_nat size) bx by_ bz (x, y, z))
      by lia.
    cbn [mbind result_bind acc_append].
    rewrite Hdec. rewrite !fmap_cons. cbn [fst snd].
    rewrite <- !app_assoc. cbn [app].
    rewrite Hbx, Hby, Hbz.
    rewrite (int_from_bytes_signed_le size vx Hsize Hrx).
    rewrite (int_from_bytes_signed_le size vy Hsize Hry).
    by rewrite (int_from_bytes_signed_le size vz Hsize Hrz).
Qed.

(** X6: the accelerometer decoder inverts the encoding that the tests use:
    for frame type 0, 1 or 2, a frame made, sample after sample, of the
    signed little-endian encodings of x, y and z on [frame_type + 1] bytes
    is decoded to the number of samples and the three sequences. *)
Theorem process_acc_samples_round_trip (frame_type : Z)
    (xyz : list (Z * Z * Z)) (data : bytes) :
  0 ≤ frame_type ≤ 2 →
  acc_frame (Z.to_nat (frame_type + 1)) xyz = Ok data →
  process_acc_samples frame_type data
  = Ok (Z.of_nat (length xyz), AccSamples xyz.*1.*1 xyz.*1.*2 xyz.*2).
Proof.
  intros Hft Hframe.
  assert (0 < Z.to_nat (frame_type + 1))%nat as Hsize by lia.
  destruct (acc_frame_frames _ xyz data Hsize Hframe)
    as (frames & -> & Hall & Hlen & Hdec).
  unfold process_acc_samples, iter_batched.
  rewrite decide_False by lia. rewrite decide_False by lia.
  rewrite batches_concat; [|lia| |done].
  - cbn [mbind result_bind].
    specialize (Hdec [] [] []). rewrite Z2Nat.id in Hdec by lia.
    rewrite Hdec. cbn [mbind result_bind app]. by rewrite Hlen.
  - eapply Forall_impl; [exact Hall|]. intros f Hf. simpl in Hf. lia.
Qed.

Lemma process_acc_samples_round_trip_witness :
  process_acc_samples 1 [24; 252; 14; 252; 4; 252; 232; 3; 222; 3; 212; 3]
  = Ok (2, AccSamples [-1000; 1000] [-1010; 990] [-1020; 980]).
Proof.
  apply (process_acc_samples_round_trip 1
           [(-1000, -1010, -1020); (1000, 990, 980)]).
  - lia.
  - reflexivity.
Defined.

(** ** [process_hr_samples] *)

Lemma int_from_bytes_take2 (bs : bytes) :
  Forall (λ b, 0 ≤ b < 256) bs → 0 ≤ int_from_bytes (take 2 bs) < 65536.
Proof.
  intros Hbs.
  pose proof (int_from_bytes_bound (take 2 bs) (Forall_take _ 2 _ Hbs)) as Hb.
  assert (length (take 2 bs) ≤ 2)%nat as Hlen by (rewrite length_take; lia).
  assert (256 ^ Z.of_nat (length (take 2 bs)) ≤ 256 ^ 2)
    by (apply Z.pow_le_mono_r; lia).
  lia.
Qed.

Lemma rr_intervals (l : bytes) :
  Forall (λ b, 0 ≤ b < 256) l →
  ((length l `mod` 2 ≠ 0)%nat →
   iter_batched l 2 true = Raise (ValueError "batched(): incomplete batch")) ∧
  ((length l `mod` 2 = 0)%nat →
   ∃ bs : list bytes,
     iter_batched l 2 true = Ok bs ∧ length bs = (length l / 2)%nat ∧
     Forall (λ v, 0 ≤ v < 64000)
       ((λ val : bytes, (int_from_bytes val * 1000) `div` 1024) <$> bs)).
Proof.
  intros Hl.
  pose proof (iter_batched_divisible l 2 ltac:(lia)) as Hok.
  pose proof (iter_batched_indivisible l 2 ltac:(lia)) as Hbad.
  split; intros Hmod.
  - apply Hbad. rewrite <- (Nat2Z.inj_mod _ 2). lia.
  - destruct Hok as (bs & Hbs & Hcat & Hall & Hcount).
    { rewrite <- (Nat2Z.inj_mod _ 2). lia. }
    exists bs. split; [done|]. split.
    { rewrite <- (Nat2Z.inj_div _ 2) in Hcount. lia. }
    apply Forall_fmap, Forall_forall. intros c Hc. simpl.
    assert (Forall (λ b, 0 ≤ b < 256) c) as Hcb.
    { rewrite <- Hcat, Forall_concat, Forall_forall in Hl. by apply Hl. }
    apply int_from_bytes_bound in Hcb.
    rewrite Forall_forall in Hall. specialize (Hall c Hc). simpl in Hall.
    replace (Z.of_nat (length c)) with 2 in Hcb by lia.
    split; [apply Z.div_pos; lia|apply Z.div_lt_upper_bound; lia].
Qed.

(** X7: on an input of two bytes or more, [process_hr_samples] raises
    exactly when the RR flag (bit 4) is set and an odd number of bytes
    follows the heart rate and energy fields.  Otherwise it returns a
    sample whose optional keys are present exactly when their flag is set
    (bit 2 contact, bit 3 energy, bit 4 RR), with a heart rate below 65536
    (below 256 when bit 0 is clear), a contact value that is bit 1, an
    energy below 65536, and one RR value below 64000 for every two bytes
    left. *)
Theorem process_hr_samples_result (data : bytes) (flags : Z) :
  Forall (λ b, 0 ≤ b < 256) data → (2 ≤ length data)%nat →
  data !! 0%nat = Some flags →
  let trailing := length (drop (rr_offset flags) data) in
  (flag flags 0x10 = true → (trailing `mod` 2 ≠ 0)%nat →
   process_hr_samples data = Raise (ValueError "batched(): incomplete batch")) ∧
  (flag flags 0x10 = false ∨ (trailing `mod` 2 = 0)%nat →
   ∃ s, process_hr_samples data = Ok (Some s) ∧
        0 ≤ heart_rate s < 65536 ∧
        (flag flags 0x01 = false → Some (heart_rate s) = data !! 1%nat) ∧
        sensor_contact s
        = (if flag flags 0x04 then Some (flag flags 0x02) else None) ∧
        (if flag flags 0x08
         then ∃ e, energy_expended s = Some e ∧ 0 ≤ e < 65536
         else energy_expended s = None) ∧
        (if flag flags 0x10
         then ∃ rr, rr_interval s = Some rr ∧
                    length rr = (trailing / 2)%nat ∧
                    Forall (λ v, 0 ≤ v < 64000) rr
         else rr_interval s = None)).
Proof.
  intros Hbytes Hlen Hflags trailing. subst trailing.
  destruct data as [|f [|b rest]]; try (simpl in Hlen; lia).
  injection Hflags as ->.
  apply Forall_cons in Hbytes as [_ Hbytes].
  unfold process_hr_samples, rr_offset, index, slice.
  rewrite decide_False by lia.
  cbn [lookup list_lookup mbind result_bind Nat.add Nat.sub drop].
  pose proof (int_from_bytes_take2 (b :: rest) Hbytes) as Hhr16.
  pose proof (int_from_bytes_take2 rest) as He1.
  pose proof (int_from_bytes_take2 (drop 1 rest)) as He2.
  apply Forall_cons in Hbytes as [Hb Hrest].
  specialize (He1 Hrest). specialize (He2 (Forall_drop _ 1 _ Hrest)).
  destruct (flag flags 1); cbn [mbind result_bind];
    destruct (flag flags 8); cbn [Nat.add Nat.sub drop];
    match goal with
    | |- context [iter_batched ?l 2 true] =>
        destruct (rr_intervals l) as [Hbad Hok];
          [by repeat apply Forall_drop|]
    end.
  all: split; [intros -> Hodd; by rewrite Hbad|intros Heven].
  all: destruct (flag flags 16) eqn:Hrr.
  all: try (destruct Heven as [Heven|Heven]; [done|];
            destruct (Hok Heven) as (bs & -> & Hcount & Hall)).
  all: cbn [mbind result_bind]; eexists; split; [reflexivity|];
    cbn [heart_rate sensor_contact energy_expended rr_interval].
  all: repeat split; try done; try lia; eauto.
  all: try (eexists; split; [reflexivity|]; split; [|done];
            by rewrite length_fmap).
Qed.

Lemma process_hr_samples_result_witness :
  process_hr_samples [16; 84; 1]
  = Raise (ValueError "batched(): incomplete batch").
Proof.
  apply (process_hr_samples_result [16; 84; 1] 16).
  - repeat constructor; lia.
  - simpl. lia.
  - reflexivity.
  - reflexivity.
  - by vm_compute.
Defined.

(** ** [get_timestamps_list] *)

(** X8: on its domain [get_timestamps_list] returns an arithmetic
    progression with a step of at least 1 ns, so strictly increasing
    timestamps, the last of which is at most [timestamp + delta] and less
    than [n_samples] ns before it. *)
Theorem get_timestamps_list_progression
    (n_samples sample_rate timestamp p_timestamp delta : Z) :
  0 < n_samples → 0 < sample_rate ≤ 10 ^ 9 → p_timestamp ≤ timestamp →
  timestamp - p_timestamp < float_limit →
  ∃ first step,
    get_timestamps_list n_samples sample_rate timestamp p_timestamp delta
    = Ok ((λ i, first + step * i) <$> range n_samples) ∧
    1 ≤ step ∧
    timestamp + delta - n_samples < first + step * (n_samples - 1)
    ≤ timestamp + delta.
Proof.
  intros Hn Hsr Hts Hbound.
  rewrite get_timestamps_list_spec by done.
  unfold frame_timestamps, frame_spacing.
  assert (0 < 10 ^ 9 `div` sample_rate) as Hideal
    by (apply Z.div_str_pos; lia).
  pose proof (Z.div_mod (timestamp - p_timestamp) n_samples ltac:(lia)) as Hdiv.
  pose proof (Z.mod_pos_bound (timestamp - p_timestamp) n_samples Hn) as Hmod.
  case_decide as Hnear.
  - exists (p_timestamp + (timestamp - p_timestamp) `div` n_samples + delta),
      ((timestamp - p_timestamp) `div` n_samples).
    split; [|split; [lia|nia]].
    f_equal. apply list_fmap_ext. intros i x _. lia.
  - exists (timestamp - n_samples * (10 ^ 9 `div` sample_rate)
            + 10 ^ 9 `div` sample_rate + delta),
      (10 ^ 9 `div` sample_rate).
    split; [|split; [lia|nia]].
    f_equal. apply list_fmap_ext. intros i x _. lia.
Qed.

Lemma get_timestamps_list_progression_witness :
  ∃ first step,
    get_timestamps_list 2 130 15385615 1000 7
    = Ok ((λ i, first + step * i) <$> range 2) ∧
    1 ≤ step ∧ 15385615 + 7 - 2 < first + step * (2 - 1) ≤ 15385615 + 7.
Proof.
  apply (get_timestamps_list_progression 2 130 15385615 1000 7).
  - lia.
  - lia.
  - lia.
  - by vm_compute.
Defined.

(** ** The parameter codec, further *)

Section CodecMore.
Context {E : Enums}.

Lemma PMDSetting_getitem_ok k s : PMDSetting_getitem k = Ok s → k = PMDSetting_name s.
Proof.
  unfold PMDSetting_getitem.
  destruct (list_find _ _) as [[i t]|] eqn:Hfind; [|done].
  intros [= ->]. by apply list_find_Some in Hfind as (_ & <- & _).
Qed.

Lemma PMDSetting_getitem_unknown k :
  (∀ s, k ≠ PMDSetting_name s) → PMDSetting_getitem k = Raise KeyError.
Proof.
  intros Hk. destruct (PMDSetting_getitem k) as [s|e] eqn:Hget.
  - apply PMDSetting_getitem_ok in Hget. by destruct (Hk s).
  - unfold PMDSetting_getitem in *. by destruct (list_find _ _) as [[]|].
Qed.

Lemma serialize_values_raises size xs data :
  ¬ Forall (fits size) xs →
  serialize_values size xs data = Raise OverflowError.
Proof.
  revert data. induction xs as [|x xs IH]; intros data Hxs.
  - by destruct Hxs.
  - cbn [serialize_values]. unfold int_to_bytes. case_decide as Hx.
    + cbn [mbind result_bind]. apply IH. intros Hall. apply Hxs. by constructor.
    + done.
Qed.

(** One entry of the encoder: accepted entries append their encoding,
    the others raise. *)
Lemma serialize_items_cons k v rest data :
  (serializable (k, v) ∧
   serialize_items ((k, v) :: rest) data
   = serialize_items rest (data ++ entry_bytes (k, v))) ∨
  (¬ serializable (k, v) ∧
   (serialize_items ((k, v) :: rest) data = Raise KeyError ∨
    serialize_items ((k, v) :: rest) data = Raise OverflowError)).
Proof.
  cbn [serialize_items]. unfold serializable, entry_bytes. cbn [fst snd].
  destruct (PMDSetting_getitem k) as [s|e] eqn:Hget.
  - apply PMDSetting_getitem_ok in Hget as ->.
    cbn [mbind result_bind].
    rewrite le_bytes_1 by apply PMDSetting_value_byte. cbn [mbind result_bind].
    destruct v as [x|xs].
    + unfold int_to_bytes. change (get_setting_size (ByName _)) with 2%nat.
      case_decide as Hx.
      * left. split; [by eauto|]. cbn [mbind result_bind].
        f_equal. by rewrite <- !app_assoc.
      * right. split; [|by right]. intros (_ & Hfit & _). by apply Hx.
    + destruct (decide (length xs < 256)%nat) as [Hlen|Hlen].
      * rewrite le_bytes_1 by lia. cbn [mbind result_bind].
        change (get_setting_size (ByName _)) with 2%nat.
        destruct (decide (Forall (fits 2) xs)) as [Hxs|Hxs].
        -- left. split; [by eauto|].
           rewrite serialize_values_fits by done. cbn [mbind result_bind].
           f_equal. by rewrite <- !app_assoc.
        -- right. split; [intros (_ & Hfit & _); by apply Hxs|]. right.
           by rewrite serialize_values_raises.
      * right. split; [intros (_ & _ & ?); by apply Hlen|]. right.
        unfold int_to_bytes at 1. rewrite decide_False; [done|].
        change (256 ^ Z.of_nat 1) with 256. lia.
  - right. split; [|left].
    + intros ((s & ->) & _). by rewrite PMDSetting_getitem_name in Hget.
    + assert (e = KeyError) as ->; [|done].
      unfold PMDSetting_getitem in Hget.
      destruct (list_find _ _) as [[]|]; congruence.
Qed.

Lemma serialize_items_result m data :
  (Forall serializable m ∧ serialize_items m data = Ok (data ++ encoding m)) ∨
  (¬ Forall serializable m ∧
   (serialize_items m data = Raise KeyError ∨
    serialize_items m data = Raise OverflowError)).
Proof.
  revert data. induction m as [|[k v] m IH]; intros data.
  - left. split; [done|]. simpl. by rewrite app_nil_r.
  - destruct (serialize_items_cons k v m data) as [[Hkv ->]|[Hkv Hraise]].
    + destruct (IH (data ++ entry_bytes (k, v))) as [[Hm ->]|[Hm Hraise]].
      * left. split; [by constructor|]. by rewrite encoding_cons, app_assoc.
      * right. split; [|done]. intros Hall. apply Hm.
        by apply Forall_cons in Hall as [_ ?].
    + right. split; [|done]. intros Hall. apply Hkv.
      by apply Forall_cons in Hall as [? _].
Qed.

(** X9: [serialize_pmd_parameters] returns exactly when every key is the
    name of a setting, every value fits two bytes and every list has at
    most 255 elements; otherwise it raises [KeyError] or [OverflowError].
    The bytes are, entry after entry, the setting id, the count and the
    values on two bytes each, whatever the width of the setting. *)
Theorem serialize_pmd_parameters_result (parameters : pydict) :
  (Forall serializable parameters →
   serialize_pmd_parameters parameters = Ok (encoding parameters)) ∧
  (¬ Forall serializable parameters →
   serialize_pmd_parameters parameters = Raise KeyError ∨
   serialize_pmd_parameters parameters = Raise OverflowError).
Proof.
  unfold serialize_pmd_parameters.
  destruct (serialize_items_result parameters []) as [[Hm Hok]|[Hm Hraise]].
  - split; [by intros _|]. intros Hn. by destruct (Hn Hm).
  - split; [|done]. intros Hall. by destruct (Hm Hall).
Qed.

End CodecMore.

Lemma serialize_pmd_parameters_result_witness :
  serialize_pmd_parameters (E:=polar_enums) [("CHANNELS", VList [1; 2])]
  = Ok [4; 2; 1; 0; 2; 0].
Proof.
  apply (serialize_pmd_parameters_result (E:=polar_enums)
           [("CHANNELS", VList [1; 2])]).
  repeat constructor; try (by exists CHANNELS); by vm_compute.
Defined.

Section DecoderMore.
Context {E : Enums}.

(** The decoder on a buffer that starts with encoded entries: it reads
    them and goes on with what follows. *)
Lemma deserialize_loop_prefix m pre rest params fuel :
  Forall entry_ok m → ends_ok m ∨ rest ≠ [] →
  deserialize_loop (length m + fuel) (pre ++ encoding m ++ rest)
    (length pre) params
  = deserialize_loop fuel (pre ++ encoding m ++ rest)
      (length (pre ++ encoding m))
      (foldl (λ d kv, dict_set kv.1 kv.2 d) params m).
Proof.
  intros Hm. revert pre params.
  induction Hm as [|kv m Hkv Hm IH]; intros pre params Hend.
  - cbn [length Nat.add foldl]. change (encoding []) with (@nil Z).
    by rewrite app_nil_r.
  - cbn [length Nat.add deserialize_loop]. rewrite encoding_cons.
    rewrite <- (app_assoc (entry_bytes kv)).
    rewrite decide_True.
    + rewrite deserialize_entry_encoded by done. cbn [mbind result_bind foldl].
      rewrite <- length_app.
      rewrite (app_assoc pre (entry_bytes kv)), IH.
      * by rewrite <- !app_assoc.
      * destruct Hend as [Hend|]; [|by right].
        destruct m; [left; by intros ?|]. left. by eapply ends_ok_tail.
    + rewrite !length_app.
      destruct m as [|kv' m].
      * destruct Hend as [Hend|Hrest].
        -- assert (3 ≤ length (entry_bytes kv))%nat; [|lia].
           apply entry_bytes_nonempty_list; [done|].
           intros k ->. by destruct (Hend k).
        -- apply entry_bytes_length in Hkv. destruct rest; [done|].
           simpl. lia.
      * apply entry_bytes_length in Hkv. apply encoding_length in Hm.
        simpl in Hm. lia.
Qed.

(** X10: bytes that follow the last entry and are too few for an entry
    (one or two) are ignored: a map that goes round (C1) is decoded from
    its encoding followed by up to two arbitrary bytes.  In particular an
    input of at most two bytes decodes to the empty dictionary. *)
Theorem deserialize_ignores_short_tail (m : pydict) (data tail : bytes) :
  NoDup m.*1 → Forall entry_ok m → ends_ok m →
  serialize_pmd_parameters m = Ok data → (length tail ≤ 2)%nat →
  deserialize_pmd_parameters (data ++ tail) = Ok m.
Proof.
  intros Hnd Hm Hend Hser Htail.
  unfold serialize_pmd_parameters in Hser.
  rewrite serialize_items_ok in Hser by done. injection Hser as <-.
  cbn [app]. unfold deserialize_pmd_parameters.
  pose proof (encoding_length m Hm) as Hlen.
  replace (length (encoding m ++ tail))
    with (length m + (length (encoding m ++ tail) - length m))%nat
    by (rewrite length_app; lia).
  pose proof (deserialize_loop_prefix m [] tail []) as Hloop.
  cbn [app length] in Hloop. rewrite Hloop by (done || by left).
  rewrite foldl_dict_set_fresh by done. cbn [app].
  destruct (_ - _)%nat; [done|]. cbn [deserialize_loop].
  rewrite decide_False; [done|]. rewrite length_app. lia.
Qed.


Lemma read_values_truncated size xs count pre tail value :
  Forall (fits size) xs → (length xs < count)%nat →
  (length tail < size)%nat →
  read_values count (pre ++ values_bytes size xs ++ tail) (length pre) size value
  = (value ++ xs, (length pre + length (values_bytes size xs))%nat).
Proof.
  intros Hxs. revert count pre value.
  induction Hxs as [|x xs Hx _ IH]; intros count pre value Hcount Htail.
  - destruct count as [|count]; [simpl in Hcount; lia|].
    cbn [read_values]. change (values_bytes size []) with (@nil Z).
    rewrite decide_True by (rewrite !length_app; simpl; lia).
    rewrite app_nil_r. f_equal. simpl. lia.
  - destruct count as [|count]; [simpl in Hcount; lia|].
    cbn [read_values]. rewrite values_bytes_cons.
    rewrite decide_False by (rewrite !length_app, le_bytes_length; lia).
    rewrite <- app_assoc.
    rewrite slice_app_n by (by rewrite le_bytes_length).
    rewrite int_from_le_bytes by done.
    replace (length pre + size)%nat with (length (pre ++ le_bytes size x))
      by (by rewrite length_app, le_bytes_length).
    rewrite (app_assoc pre), IH by (simpl in Hcount; lia).
    rewrite <- app_assoc. f_equal. rewrite !length_app. lia.
Qed.

(** X11: a last entry that is a list of a two-byte setting and is cut
    short (fewer values than its count announces, then at most one byte)
    is decoded to the values received in full, after the entries before
    it; except when nothing at all follows its two header bytes: the loop
    then does not start the entry, and only the entries before it are
    returned. *)
Theorem deserialize_truncated_list_entry (m : pydict) (s : PMDSetting)
    (count : Z) (xs : list Z) (tail : bytes) :
  NoDup (m.*1 ++ [PMDSetting_name s]) → Forall entry_ok m →
  get_setting_size (ByMember s) = 2%nat →
  count ≠ 1 → Z.of_nat (length xs) < count → Forall (fits 2) xs →
  (length tail ≤ 1)%nat →
  let data :=
    encoding m ++ PMDSetting_value s :: count :: values_bytes 2 xs ++ tail in
  (xs ≠ [] ∨ tail ≠ [] →
   deserialize_pmd_parameters data
   = Ok (m ++ [(PMDSetting_name s, VList xs)])) ∧
  (xs = [] → tail = [] → deserialize_pmd_parameters data = Ok m).
Proof.
  intros Hnd Hm Hsize Hcount Hxs Hfits Htail data. subst data.
  set (rest := PMDSetting_value s :: count :: values_bytes 2 xs ++ tail).
  pose proof (encoding_length m Hm) as Hlen.
  assert (2 ≤ length rest)%nat as Hrest2 by (subst rest; simpl; lia).
  unfold deserialize_pmd_parameters.
  replace (length (encoding m ++ rest))
    with (length m + S (length (encoding m ++ rest) - S (length m)))%nat
    by (rewrite length_app; lia).
  pose proof (deserialize_loop_prefix m [] rest []) as Hloop.
  cbn [app length] in Hloop. rewrite Hloop; [|done|right; by subst rest].
  apply NoDup_app in Hnd as (Hndm & Hfresh & _).
  rewrite foldl_dict_set_fresh by done. cbn [app deserialize_loop].
  split.
  - intros Hsome.
    assert (3 ≤ length rest)%nat as Hrest.
    { subst rest. cbn [length]. rewrite length_app, values_bytes_length.
      destruct Hsome as [Hne|Hne]; [destruct xs|destruct tail]; simpl;
        try done; lia. }
    rewrite decide_True by (rewrite length_app; lia).
    subst rest.
    rewrite (deserialize_entry_header _ _ _ _ _ s (PMDSetting_call_value s)).
    cbv zeta. rewrite decide_False by done. rewrite Hsize.
    rewrite read_values_truncated by (done || lia).
    cbn [mbind result_bind app].
    rewrite dict_set_fresh.
    2:{ intros Hin. by apply (Hfresh _ Hin), list_elem_of_singleton. }
    destruct (_ - _)%nat; [done|]. cbn [deserialize_loop].
    rewrite decide_False; [done|].
    rewrite !length_app. simpl. rewrite !length_app. lia.
  - intros -> ->. subst rest.
    rewrite decide_False; [done|]. rewrite length_app. simpl. lia.
Qed.

End DecoderMore.

Lemma deserialize_ignores_short_tail_witness :
  deserialize_pmd_parameters (E:=polar_enums) [1; 1; 16; 0; 255; 7]
  = Ok [("RESOLUTION", VInt 16)].
Proof.
  apply (deserialize_ignores_short_tail (E:=polar_enums)
           [("RESOLUTION", VInt 16)] [1; 1; 16; 0] [255; 7]).
  - compute_done.
  - repeat constructor. exists RESOLUTION. repeat split; by vm_compute.
  - intros k. discriminate.
  - reflexivity.
  - simpl. lia.
Defined.

Lemma deserialize_truncated_list_entry_witness :
  deserialize_pmd_parameters (E:=polar_enums)
    [1; 1; 16; 0; 0; 4; 25; 0; 50; 0; 100]
  = Ok [("RESOLUTION", VInt 16); ("SAMPLE_RATE", VList [25; 50])].
Proof.
  pose proof (deserialize_truncated_list_entry (E:=polar_enums)
                [("RESOLUTION", VInt 16)] SAMPLE_RATE 4 [25; 50] [100])
    as Hlist.
  apply Hlist.
  - compute_done.
  - repeat constructor. exists RESOLUTION. repeat split; by vm_compute.
  - reflexivity.
  - lia.
  - simpl. lia.
  - repeat constructor; by vm_compute.
  - simpl. lia.
  - by left.
Defined.

Section DecoderValid.
Context {E : Enums}.

Lemma dict_set_keys k v (d : pydict) :
  (dict_set k v d).*1 = if decide (k ∈ d.*1) then d.*1 else d.*1 ++ [k].
Proof.
  induction d as [|[k' v'] d IH]; [done|].
  cbn [dict_set]. rewrite !fmap_cons. cbn [fst].
  destruct (decide (k' = k)) as [->|Hne].
  - rewrite decide_True by left. done.
  - rewrite fmap_cons, IH. cbn [fst].
    destruct (decide (k ∈ d.*1)) as [Hin|Hin].
    + by rewrite decide_True by (by right).
    + rewrite decide_False; [done|].
      rewrite not_elem_of_cons. split; [congruence|done].
Qed.

Lemma dict_set_valid s v (d : pydict) :
  capability_valid d → value_fits (get_setting_size (ByMember s)) v →
  capability_valid (dict_set (PMDSetting_name s) v d).
Proof.
  intros [Hnd Hall] Hv. split.
  - rewrite dict_set_keys. case_decide as Hin; [done|].
    apply NoDup_app. split; [done|]. split; [|apply NoDup_singleton].
    intros k Hk ->%list_elem_of_singleton. done.
  - clear Hnd. induction Hall as [|[k' v'] d Hkv Hd IH]; cbn [dict_set].
    + repeat constructor. by exists s.
    + case_decide as Hk.
      * constructor; [|done]. exists s. by split.
      * constructor; [done|apply IH].
Qed.

Lemma slice_fits (data : bytes) offset size :
  Forall (λ b, 0 ≤ b < 256) data →
  fits size (int_from_bytes (slice data offset (offset + size))).
Proof.
  intros Hdata. unfold fits, slice.
  assert (Forall (λ b, 0 ≤ b < 256) (take (offset + size - offset) (drop offset data)))
    as Hs by (by apply Forall_take, Forall_drop).
  apply int_from_bytes_bound in Hs.
  assert (length (take (offset + size - offset) (drop offset data)) ≤ size)%nat
    as Hlen by (rewrite length_take; lia).
  assert (256 ^ Z.of_nat (length (take (offset + size - offset) (drop offset data)))
          ≤ 256 ^ Z.of_nat size) by (apply Z.pow_le_mono_r; lia).
  lia.
Qed.

Lemma read_values_fits count (data : bytes) offset size value :
  Forall (λ b, 0 ≤ b < 256) data → Forall (fits size) value →
  Forall (fits size) (read_values count data offset size value).1.
Proof.
  intros Hdata. revert offset value.
  induction count as [|count IH]; intros offset value Hvalue; [done|].
  cbn [read_values]. case_decide; [done|].
  apply IH. apply Forall_app. split; [done|].
  apply Forall_singleton. by apply slice_fits.
Qed.

Lemma deserialize_entry_result (data : bytes) offset params :
  Forall (λ b, 0 ≤ b < 256) data → (offset + 2 < length data)%nat →
  capability_valid params →
  (∃ offset' params',
     deserialize_entry data offset params = Ok (offset', params') ∧
     capability_valid params') ∨
  deserialize_entry data offset params
  = Raise (ValueError "is not a valid PMDSetting").
Proof.
  intros Hdata Hguard Hvalid. unfold deserialize_entry, index.
  destruct (lookup_lt_is_Some_2 data offset) as [b ->]; [lia|].
  destruct (lookup_lt_is_Some_2 data (offset + 1)) as [c ->]; [lia|].
  cbn [mbind result_bind]. unfold PMDSetting_call.
  destruct (list_find _ _) as [[i s]|]; [|by right].
  cbn [mbind result_bind]. left. case_decide.
  - do 2 eexists. split; [reflexivity|].
    apply dict_set_valid; [done|]. by apply slice_fits.
  - pose proof (read_values_fits (Z.to_nat c) data (offset + 1 + 1)
                  (get_setting_size (ByMember s)) [] Hdata (Forall_nil_2 _))
      as Hfits.
    destruct (read_values _ _ _ _ _) as [value offset'].
    do 2 eexists. split; [reflexivity|]. by apply dict_set_valid.
Qed.

Lemma deserialize_loop_result fuel (data : bytes) offset params :
  Forall (λ b, 0 ≤ b < 256) data → capability_valid params →
  (∃ m, deserialize_loop fuel data offset params = Ok m ∧ capability_valid m) ∨
  deserialize_loop fuel data offset params
  = Raise (ValueError "is not a valid PMDSetting").
Proof.
  intros Hdata. revert offset params.
  induction fuel as [|fuel IH]; intros offset params Hvalid.
  - left. by exists params.
  - cbn [deserialize_loop]. case_decide as Hguard; [|left; by exists params].
    destruct (deserialize_entry_result data offset params Hdata Hguard Hvalid)
      as [(offset' & params' & -> & Hvalid')| ->]; [|by right].
    cbn [mbind result_bind]. by apply IH.
Qed.

(** X12: on every byte string [deserialize_pmd_parameters] either returns
    or raises the [ValueError] of an undefined setting id; it never reads
    outside the buffer.  What it returns is a capability-valid map: the
    keys are names of settings, each once, and every value (scalar or list
    element) fits the wire width of its setting. *)
Theorem deserialize_pmd_parameters_result (data : bytes) :
  Forall (λ b, 0 ≤ b < 256) data →
  (∃ m, deserialize_pmd_parameters data = Ok m ∧ capability_valid m) ∨
  deserialize_pmd_parameters data
  = Raise (ValueError "is not a valid PMDSetting").
Proof.
  intros Hdata. apply deserialize_loop_result; [done|].
  split; [apply NoDup_nil_2|apply Forall_nil_2].
Qed.

End DecoderValid.

Lemma deserialize_pmd_parameters_result_witness :
  (∃ m, deserialize_pmd_parameters (E:=polar_enums) [0; 1; 25] = Ok m ∧
        capability_valid m) ∨
  deserialize_pmd_parameters (E:=polar_enums) [0; 1; 25]
  = Raise (ValueError "is not a valid PMDSetting").
Proof.
  apply (deserialize_pmd_parameters_result (E:=polar_enums) [0; 1; 25]).
  repeat constructor; lia.
Defined.

(** ** Registration and removal, further *)

Section LifecycleMore.
Context {E : Enums}.

Local Ltac run_method_in H :=
  unfold register_notification, remove_notification, del_item, mbind,
    stateful_bind, get_state, update, lift, raise, try_except, mret,
    stateful_ret in H.

(** A key that was just inserted is not missing. *)
Local Ltac inserted_key :=
  match goal with
  | H : <[?k := ?v]> ?m !! ?k = None |- _ =>
      pose proof (lookup_insert_eq m k v); congruence
  end.

Local Ltac lookups :=
  rewrite ?lookup_delete_eq, ?lookup_insert_eq, ?lookup_delete_ne,
    ?lookup_insert_ne by done.

(** Every kind with a callback has a current configuration: this holds of
    a new object, whose tables are empty, and the two methods keep it,
    whether they return or raise. *)
Lemma register_notification_configured env kind cb parameters self self' r :
  (∀ k, is_Some (_callbacks self !! k) → is_Some (_current_config self !! k)) →
  register_notification env kind cb parameters self = (self', r) →
  ∀ k, is_Some (_callbacks self' !! k) → is_Some (_current_config self' !! k).
Proof.
  intros Hself Hreg k. specialize (Hself k). run_method_in Hreg.
  destruct (decide (k = kind)) as [->|Hk].
  - repeat case_match; simplify_eq/=; try inserted_key; try done.
    all: lookups; try done; by intros [? ?].
  - repeat case_match; simplify_eq/=; try inserted_key; try done.
    all: by lookups.
Qed.

Lemma remove_notification_configured env kind self self' r :
  (∀ k, is_Some (_callbacks self !! k) → is_Some (_current_config self !! k)) →
  remove_notification env kind self = (self', r) →
  ∀ k, is_Some (_callbacks self' !! k) → is_Some (_current_config self' !! k).
Proof.
  intros Hself Hrem k. pose proof (Hself kind) as Hkind. specialize (Hself k).
  run_method_in Hrem.
  destruct (decide (_config self !! kind = None)); [by simplify_eq|].
  destruct (decide (_callbacks self !! kind = None)) as [|Hcb];
    [by simplify_eq|].
  apply not_eq_None_Some, Hkind in Hcb as [c Hc].
  destruct (decide (k = kind)) as [->|Hk].
  - repeat case_match; simplify_eq/=; try done.
    all: lookups; try done; by intros [? ?].
  - repeat case_match; simplify_eq/=; try done.
    all: by lookups.
Qed.

(** X13: on an object where the kind has a current configuration when it
    has a callback (as [register_notification] leaves it), whenever
    [remove_notification] raises, for whatever reason (kind unsupported or
    not registered, transport error, STOP_MEASUREMENT answered with a
    failure status), the object is left as it was.  Where an ECG or ACC
    callback has no current configuration and the device stops the
    measurement, the callback is deleted before the second [del] raises
    [KeyError]. *)
Theorem remove_notification_raise_unchanged (env : transport)
    (kind : NotificationType) (self self' : PolarH10) (e : exn) :
  ((is_Some (_callbacks self !! kind) →
    is_Some (_current_config self !! kind)) →
   remove_notification env kind self = (self', Raise e) → self' = self) ∧
  (∀ params,
     kind = ECG ∨ kind = ACC →
     is_Some (_config self !! kind) →
     is_Some (_callbacks self !! kind) →
     _current_config self !! kind = None →
     _pmd_control_point_request env STOP_MEASUREMENT
       (NotificationType_value kind) [] = Ok (PMDStatus_SUCCESS, params) →
     remove_notification env kind self
     = (set_callbacks (delete kind) self, Raise KeyError)).
Proof.
  split.
  - intros Hconfigured Hrem. run_method_in Hrem.
    destruct (decide (_config self !! kind = None)); [by simplify_eq|].
    destruct (decide (_callbacks self !! kind = None)) as [|Hcb];
      [by simplify_eq|].
    apply not_eq_None_Some, Hconfigured in Hcb as [c Hc].
    repeat case_match; simplify_eq/=; done.
  - intros params Hkind Hconfig Hcb Hcurrent Hanswer.
    unfold remove_notification, mbind, stateful_bind, get_state, lift, raise,
      try_except.
    rewrite decide_False by (by apply not_eq_None_Some).
    rewrite decide_False by (by apply not_eq_None_Some).
    rewrite decide_False by (destruct Hkind as [-> | ->]; done).
    rewrite decide_False by (destruct Hkind as [-> | ->]; simpl; lia).
    assert (PMDMeasurement_call (NotificationType_value kind)
            = Ok (NotificationType_value kind)) as ->.
    { unfold PMDMeasurement_call.
      destruct Hkind as [-> | ->]; simpl;
        by rewrite ?PMDMeasurement_ECG, ?PMDMeasurement_ACC. }
    rewrite Hanswer, decide_False by (by intros []).
    rewrite del_item_present by done.
    by rewrite del_item_missing by done.
Qed.


(** X15: a registration of ECG or ACC that returns has validated the
    parameters, got the success status for START_MEASUREMENT with the
    serialized parameters as payload, and left the callback, the validated
    parameters as current configuration and 0 as previous frame
    timestamp of the kind; nothing else is changed. *)
Theorem register_notification_pmd_ok (env : transport)
    (kind : NotificationType) (cb : callback) (parameters : option pydict)
    (self self' : PolarH10) :
  kind = ECG ∨ kind = ACC →
  register_notification env kind cb parameters self = (self', Ok ()) →
  ∃ valid_params payload params,
    _validate_pmd_parameters kind (_config self) parameters = Ok valid_params ∧
    serialize_valid_params valid_params = Ok payload ∧
    _pmd_control_point_request env START_MEASUREMENT
      (NotificationType_value kind) payload = Ok (PMDStatus_SUCCESS, params) ∧
    self' = set_p_timestamp (<[kind := 0]>)
              (set_current_config (<[kind := valid_params]>)
                 (set_callbacks (<[kind := cb]>) self)).
Proof.
  intros Hkind Hreg. run_method_in Hreg.
  destruct (decide (_config self !! kind = None)); [done|].
  destruct (decide (is_Some (_callbacks self !! kind))); [done|].
  destruct (_validate_pmd_parameters kind (_config self) parameters)
    as [valid_params|]; [|done].
  assert (PMDMeasurement_call (NotificationType_value kind)
          = Ok (NotificationType_value kind)) as Hcall.
  { unfold PMDMeasurement_call.
    destruct Hkind as [-> | ->]; simpl;
      by rewrite ?PMDMeasurement_ECG, ?PMDMeasurement_ACC. }
  rewrite Hcall in Hreg.
  rewrite decide_False in Hreg by (destruct Hkind as [-> | ->]; done).
  rewrite decide_False in Hreg by (destruct Hkind as [-> | ->]; simpl; lia).
  destruct (serialize_valid_params valid_params) as [payload|] eqn:Hser;
    [|by repeat case_match].
  destruct (_pmd_control_point_request env START_MEASUREMENT _ payload)
    as [[status params]|] eqn:Hanswer; [|by repeat case_match].
  destruct (decide (status ≠ PMDStatus_SUCCESS)) as [|Hok];
    [by repeat case_match|].
  apply dec_stable in Hok. subst status.
  exists valid_params, payload, params.
  split; [done|]. split; [done|]. split; [done|]. by simplify_eq/=.
Qed.


(** X17: for [HEAR_RATE] the registration is not undone when enabling
    the notifications fails: the exception of the transport is raised and
    the callback and the current configuration stay installed, so that a
    new registration raises the already-registered error. *)
Theorem register_heart_rate_start_failure (env env' : transport)
    (cb cb' : callback) (parameters parameters' : option pydict)
    (self : PolarH10) (valid_params : option pydict) (e : exn) :
  is_Some (_config self !! HEAR_RATE) →
  _callbacks self !! HEAR_RATE = None →
  _validate_pmd_parameters HEAR_RATE (_config self) parameters
  = Ok valid_params →
  start_notify_heart_rate env = Raise e →
  let self' := set_current_config (<[HEAR_RATE := valid_params]>)
                 (set_callbacks (<[HEAR_RATE := cb]>) self) in
  register_notification env HEAR_RATE cb parameters self = (self', Raise e) ∧
  register_notification env' HEAR_RATE cb' parameters' self'
  = (self', Raise (ValueError "Notification already registered for this type")).
Proof.
  intros Hsome Hfree Hvalid Hstart self'. subst self'.
  unfold register_notification, mbind, stateful_bind, get_state, update,
    lift, raise, mret, stateful_ret.
  cbn [_config _callbacks set_callbacks set_current_config].
  split.
  - rewrite decide_False by (by apply not_eq_None_Some).
    rewrite decide_False by (rewrite Hfree; by intros [? ?]).
    rewrite Hvalid, Hstart. by rewrite decide_True.
  - rewrite decide_False by (by apply not_eq_None_Some).
    rewrite decide_True; [done|]. rewrite lookup_insert_eq. by eexists.
Qed.

End LifecycleMore.

Lemma remove_notification_raise_unchanged_witness :
  let env := {| start_notify_heart_rate := Ok ();
                _pmd_control_point_request := λ _ _ _, Ok (12, []) |} in
  let self :=
    {| _callbacks := {[ECG := 7%nat]}; _p_timestamp := {[ECG := 0]};
       _config := {[ECG := [("SAMPLE_RATE", VInt 130)]]};
       _current_config := {[ECG := Some [("SAMPLE_RATE", VInt 130)]]};
       _device_time_delta := 0; called := [] |} in
  (remove_notification (E:=polar_enums) env ECG self).1 = self.
Proof.
  intros env self.
  pose proof (remove_notification_raise_unchanged (E:=polar_enums) env ECG
                self (remove_notification (E:=polar_enums) env ECG self).1
                (command_failed (E:=polar_enums) 12)) as [Hunchanged _].
  apply Hunchanged.
  - intros _. by eexists.
  - reflexivity.
Defined.


Lemma register_notification_pmd_ok_witness :
  let env := {| start_notify_heart_rate := Ok ();
                _pmd_control_point_request := λ _ _ _, Ok (0, []) |} in
  let self :=
    {| _callbacks := ∅; _p_timestamp := ∅;
       _config := {[ECG := [("SAMPLE_RATE", VInt 130)]]};
       _current_config := ∅; _device_time_delta := 0; called := [] |} in
  ∃ valid_params payload params,
    _validate_pmd_parameters ECG (_config self) None = Ok valid_params ∧
    serialize_valid_params (E:=polar_enums) valid_params = Ok payload ∧
    _pmd_control_point_request env START_MEASUREMENT 0 payload
    = Ok (0, params) ∧
    (register_notification (E:=polar_enums) env ECG 7%nat None self).1
    = set_p_timestamp (<[ECG := 0]>)
        (set_current_config (<[ECG := valid_params]>)
           (set_callbacks (<[ECG := 7%nat]>) self)).
Proof.
  intros env self.
  destruct (register_notification_pmd_ok (E:=polar_enums) env ECG 7%nat None
              self (register_notification (E:=polar_enums) env ECG 7%nat None
                      self).1)
    as (vp & payload & params & Hv & Hs & Ha & Hself).
  - by left.
  - reflexivity.
  - by exists vp, payload, params.
Defined.


Lemma register_heart_rate_start_failure_witness :
  let env := {| start_notify_heart_rate := Raise TransportError;
                _pmd_control_point_request := λ _ _ _, Ok (0, []) |} in
  register_notification (E:=polar_enums) env HEAR_RATE 7%nat None PolarH10_init
  = (set_current_config (<[HEAR_RATE := None]>)
       (set_callbacks (<[HEAR_RATE := 7%nat]>) PolarH10_init),
     Raise TransportError).
Proof.
  intros env.
  apply (register_heart_rate_start_failure (E:=polar_enums) env env 7%nat
           8%nat None None PolarH10_init None TransportError).
  - by eexists.
  - reflexivity.
  - reflexivity.
  - reflexivity.
Defined.

(** ** [_validate_pmd_parameters] *)

Lemma dict_set_nodup k v (d : pydict) : NoDup d.*1 → NoDup (dict_set k v d).*1.
Proof.
  intros Hnd. rewrite dict_set_keys. case_decide as Hin; [done|].
  apply NoDup_app. split; [done|]. split; [|apply NoDup_singleton].
  by intros k' Hk ->%list_elem_of_singleton.
Qed.

Lemma foldl_dict_set_nodup (f : pyval → pyval) (ps d : pydict) :
  NoDup d.*1 → NoDup (foldl (λ d kv, dict_set kv.1 (f kv.2) d) d ps).*1.
Proof.
  revert d. induction ps as [|[k v] ps IH]; intros d Hnd; [done|].
  cbn [foldl]. by apply IH, dict_set_nodup.
Qed.

Lemma foldl_default_fresh (caps d : pydict) :
  NoDup (d.*1 ++ caps.*1) →
  foldl (λ d kv, dict_set kv.1 (default_option kv.2) d) d caps
  = d ++ ((λ kv, (kv.1, default_option kv.2)) <$> caps).
Proof.
  revert d. induction caps as [|[k v] caps IH]; intros d Hnd.
  - cbn. by rewrite app_nil_r.
  - rewrite fmap_cons in Hnd. cbn [foldl fst snd]. rewrite dict_set_fresh.
    + rewrite IH; [by rewrite <- app_assoc|].
      rewrite fmap_app, <- app_assoc. done.
    + apply NoDup_app in Hnd as (_ & Hfresh & _).
      intros Hk. apply (Hfresh _ Hk). left.
Qed.

Lemma default_params_result (items acc : pydict) :
  (Forall (λ kv, kv.2 ≠ VList []) items ∧
   default_params items acc
   = Ok (foldl (λ d kv, dict_set kv.1 (default_option kv.2) d) acc items)) ∨
  (¬ Forall (λ kv, kv.2 ≠ VList []) items ∧
   default_params items acc = Raise IndexError).
Proof.
  revert acc. induction items as [|[k v] items IH]; intros acc.
  - left. by split.
  - cbn [default_params foldl fst snd].
    destruct v as [x|xs].
    + cbn [mbind result_bind default_option].
      destruct (IH (dict_set k (VInt x) acc)) as [[Hall ->]|[Hall ->]].
      * left. split; [by constructor|done].
      * right. split; [|done]. intros H. apply Hall.
        by apply Forall_cons in H as [_ ?].
    + destruct (last xs) as [x|] eqn:Hlast.
      * cbn [mbind result_bind default_option]. rewrite Hlast. cbn [default].
        destruct (IH (dict_set k (VInt x) acc)) as [[Hall ->]|[Hall ->]].
        -- left. split; [|done]. constructor; [|done].
           cbn [snd]. intros [= ->]. done.
        -- right. split; [|done]. intros H. apply Hall.
           by apply Forall_cons in H as [_ ?].
      * right. apply last_None in Hlast as ->. split; [|done].
        intros H. by apply Forall_cons in H as [? _].
Qed.

Lemma check_params_result kind (capabilities items acc : pydict) valid_params :
  NoDup (acc.*1 ++ items.*1) →
  check_params kind capabilities items acc = Ok valid_params →
  valid_params = acc ++ items ∧ Forall (listed_option capabilities) items.
Proof.
  revert acc. induction items as [|[k v] items IH]; intros acc Hnd Hcheck.
  - injection Hcheck as <-. by rewrite app_nil_r.
  - cbn [check_params] in Hcheck.
    destruct (dict_get k capabilities) as [capability|] eqn:Hcap; [|done].
    destruct capability as [c|xs]; [done|].
    destruct v as [x|ys]; cbn [not_in mbind result_bind] in Hcheck; [|done].
    case_bool_decide as Hin; cbn [mbind result_bind] in Hcheck; [done|].
    rewrite fmap_cons in Hnd. cbn [fst] in Hnd.
    rewrite dict_set_fresh in Hcheck.
    2:{ apply NoDup_app in Hnd as (_ & Hfresh & _).
        intros Hk. apply (Hfresh _ Hk). left. }
    apply IH in Hcheck as [-> Hall].
    + split; [by rewrite <- app_assoc|].
      constructor; [|done]. by exists xs, x.
    + rewrite fmap_app, <- app_assoc. done.
Qed.

(** X18: without overrides ([None] or an empty dictionary)
    [_validate_pmd_parameters] checks nothing and returns, for every
    capability in order, its last listed option (a scalar capability as it
    is); it returns [None] when there is no capability, and raises
    [IndexError] when a capability is an empty list. *)
Theorem validate_pmd_parameters_defaults (kind : NotificationType)
    (pmd_config : gmap NotificationType pydict) (capabilities : pydict)
    (parameters : option pydict) :
  pmd_config !! kind = Some capabilities → NoDup capabilities.*1 →
  parameters = None ∨ parameters = Some [] →
  (Forall (λ kv, kv.2 ≠ VList []) capabilities →
   _validate_pmd_parameters kind pmd_config parameters
   = Ok (if decide (capabilities = []) then None
         else Some ((λ kv, (kv.1, default_option kv.2)) <$> capabilities))) ∧
  (¬ Forall (λ kv, kv.2 ≠ VList []) capabilities →
   _validate_pmd_parameters kind pmd_config parameters = Raise IndexError).
Proof.
  intros Hcaps Hnd Hpar. unfold _validate_pmd_parameters. rewrite Hcaps.
  destruct (default_params_result capabilities []) as [[Hall ->]|[Hall ->]].
  - split; [intros _|by intros []].
    rewrite foldl_default_fresh by done. cbn [app].
    cbn [mbind result_bind].
    destruct capabilities as [|kv caps]; [done|].
    rewrite decide_False by done. rewrite fmap_cons.
    by destruct Hpar as [-> | ->].
  - split; [by intros ?|done].
Qed.

Lemma foldl_dict_set_head (f : pyval → pyval) (ps d : pydict) k v :
  ∃ v' d', foldl (λ d kv, dict_set kv.1 (f kv.2) d) ((k, v) :: d) ps
           = (k, v') :: d'.
Proof.
  revert d v. induction ps as [|[k' x] ps IH]; intros d v; [by eauto|].
  cbn [foldl dict_set fst snd]. case_decide; apply IH.
Qed.

(** X19: for a non-empty dictionary of overrides: when the kind has no
    capabilities (as [HEAR_RATE] and [DISCONNECT]),
    [_validate_pmd_parameters] returns [None] and the overrides are
    dropped unchecked; otherwise, when it returns, the result is the
    dictionary of defaults updated with the overrides in order, and every
    entry of it, default or override, is an integer among the options
    that the capabilities list for its setting. *)
Theorem validate_pmd_parameters_overrides (kind : NotificationType)
    (pmd_config : gmap NotificationType pydict) (capabilities : pydict)
    (parameters : pydict) :
  pmd_config !! kind = Some capabilities → parameters ≠ [] →
  (capabilities = [] →
   _validate_pmd_parameters kind pmd_config (Some parameters) = Ok None) ∧
  (capabilities ≠ [] → ∀ r,
   _validate_pmd_parameters kind pmd_config (Some parameters) = Ok r →
   ∃ defaults valid_params,
     r = Some valid_params ∧
     default_params capabilities [] = Ok defaults ∧
     valid_params = foldl (λ d kv, dict_set kv.1 kv.2 d) defaults parameters ∧
     Forall (listed_option capabilities) valid_params).
Proof.
  intros Hcaps Hpar. unfold _validate_pmd_parameters. rewrite Hcaps.
  split; [by intros ->|]. intros Hne r Hvalid.
  destruct (default_params_result capabilities []) as [[_ Hdef]|[_ Hdef]];
    rewrite Hdef in Hvalid; [|done].
  cbn [mbind result_bind] in Hvalid.
  set (defaults := foldl _ [] capabilities) in *.
  assert (NoDup defaults.*1) as Hnd
    by (apply (foldl_dict_set_nodup default_option); apply NoDup_nil_2).
  assert (defaults ≠ []) as Hdefaults.
  { subst defaults. destruct capabilities as [|[k v] caps]; [done|].
    cbn [foldl dict_set fst snd].
    by destruct (foldl_dict_set_head default_option caps [] k
                   (default_option v)) as (v' & d' & ->). }
  clearbody defaults.
  destruct defaults as [|d0 ds]; [done|].
  destruct parameters as [|p ps]; [done|].
  destruct (check_params kind capabilities _ []) as [vp|] eqn:Hcheck; [|done].
  injection Hvalid as <-.
  apply check_params_result in Hcheck as [-> Hall].
  - by exists (d0 :: ds),
      (foldl (λ d kv, dict_set kv.1 kv.2 d) (d0 :: ds) (p :: ps)).
  - cbn [fmap list_fmap app]. by apply (foldl_dict_set_nodup id).
Qed.

(** X20: a capability that is a scalar (what the decoder returns for a
    setting with a single option) cannot be combined with overrides: when
    the first capability is a scalar and no capability is an empty list,
    every non-empty dictionary of overrides, valid or not, makes
    [_validate_pmd_parameters] raise [TypeError]. *)
Theorem validate_pmd_parameters_scalar_capability (kind : NotificationType)
    (pmd_config : gmap NotificationType pydict) (k : string) (c : Z)
    (capabilities parameters : pydict) :
  pmd_config !! kind = Some ((k, VInt c) :: capabilities) →
  Forall (λ kv, kv.2 ≠ VList []) capabilities → parameters ≠ [] →
  _validate_pmd_parameters kind pmd_config (Some parameters) = Raise TypeError.
Proof.
  intros Hcaps Hall Hpar. unfold _validate_pmd_parameters. rewrite Hcaps.
  destruct (default_params_result ((k, VInt c) :: capabilities) [])
    as [[_ ->]|[Hbad _]].
  2:{ destruct Hbad. by constructor. }
  cbn [foldl dict_set fst snd default_option mbind result_bind].
  destruct (foldl_dict_set_head default_option capabilities [] k (VInt c))
    as (v' & d' & ->).
  destruct parameters as [|p ps]; [done|].
  destruct (foldl_dict_set_head id (p :: ps) d' k v') as (v'' & d'' & Hhead).
  cbn [id] in Hhead. rewrite Hhead.
  cbn [check_params dict_get]. by rewrite decide_True.
Qed.

Lemma validate_pmd_parameters_defaults_witness :
  _validate_pmd_parameters ACC
    {[ACC := [("SAMPLE_RATE", VList [25; 50; 100; 200]);
              ("RESOLUTION", VInt 16); ("RANGE", VList [2; 4; 8])]]} None
  = Ok (Some [("SAMPLE_RATE", VInt 200); ("RESOLUTION", VInt 16);
              ("RANGE", VInt 8)]).
Proof.
  apply (validate_pmd_parameters_defaults ACC _
           [("SAMPLE_RATE", VList [25; 50; 100; 200]);
            ("RESOLUTION", VInt 16); ("RANGE", VList [2; 4; 8])] None).
  - reflexivity.
  - compute_done.
  - by left.
  - repeat constructor; discriminate.
Defined.

Lemma validate_pmd_parameters_overrides_witness :
  let capabilities := [("SAMPLE_RATE", VList [25; 50; 100; 200]);
                       ("RANGE", VList [2; 4; 8])] in
  _validate_pmd_parameters HEAR_RATE {[HEAR_RATE := []]}
    (Some [("SAMPLE_RATE", VInt 50)]) = Ok None ∧
  ∃ defaults valid_params,
    Some [("SAMPLE_RATE", VInt 50); ("RANGE", VInt 8)] = Some valid_params ∧
    default_params capabilities [] = Ok defaults ∧
    valid_params
    = foldl (λ d kv, dict_set kv.1 kv.2 d) defaults [("SAMPLE_RATE", VInt 50)] ∧
    Forall (listed_option capabilities) valid_params.
Proof.
  intros capabilities. split.
  - pose proof (validate_pmd_parameters_overrides HEAR_RATE
                  {[HEAR_RATE := []]} [] [("SAMPLE_RATE", VInt 50)])
      as Hnone.
    apply Hnone; [reflexivity|discriminate|reflexivity].
  - pose proof (validate_pmd_parameters_overrides ACC
                  {[ACC := capabilities]} capabilities
                  [("SAMPLE_RATE", VInt 50)]) as Hsome.
    apply Hsome; [reflexivity|discriminate|discriminate|reflexivity].
Defined.

Lemma validate_pmd_parameters_scalar_capability_witness :
  _validate_pmd_parameters ECG
    {[ECG := [("SAMPLE_RATE", VInt 130); ("RESOLUTION", VInt 14)]]}
    (Some [("SAMPLE_RATE", VInt 130)])
  = Raise TypeError.
Proof.
  apply (validate_pmd_parameters_scalar_capability ECG _ "SAMPLE_RATE" 130
           [("RESOLUTION", VInt 14)]).
  - reflexivity.
  - repeat constructor; discriminate.
  - discriminate.
Defined.

(** ** [_handle_pmd_data], further *)

Section DataHandlerMore.
Context {E : Enums}.

(** X21: whatever the notification and the outcome, [_handle_pmd_data]
    leaves the callbacks, the available and the current configurations
    as they were; and either it calls no callback and leaves the previous
    frame timestamps, or it returns after one call, of the callback
    registered for the kind of the frame, whose previous frame timestamp
    becomes the timestamp of the frame. *)
Theorem handle_pmd_data_frame (now : Z) (data : bytes) (self : PolarH10) :
  let self' := (_handle_pmd_data now data self).1 in
  _callbacks self' = _callbacks self ∧
  _config self' = _config self ∧
  _current_config self' = _current_config self ∧
  ((called self' = called self ∧ _p_timestamp self' = _p_timestamp self) ∨
   (∃ kind cb r,
      (_handle_pmd_data now data self).2 = Ok () ∧
      index data 0 = Ok (NotificationType_value kind) ∧
      _callbacks self !! kind = Some cb ∧
      called self' = called self ++ [(cb, r)] ∧
      _p_timestamp self'
      = <[kind := int_from_bytes (slice data 1 9)]> (_p_timestamp self))).
Proof.
  assert (∀ (s : PolarH10) (r : result unit) (P : Prop),
            (_callbacks s = _callbacks self ∧ _config s = _config self ∧
             _current_config s = _current_config self ∧
             called s = called self ∧ _p_timestamp s = _p_timestamp self) →
            _callbacks (s, r).1 = _callbacks self ∧
            _config (s, r).1 = _config self ∧
            _current_config (s, r).1 = _current_config self ∧
            ((called (s, r).1 = called self ∧
              _p_timestamp (s, r).1 = _p_timestamp self) ∨ P)) as Hsame.
  { intros s r P (? & ? & ? & ? & ?). cbn [fst]. auto 10. }
  cbv zeta. unfold _handle_pmd_data.
  rewrite stateful_bind_lift.
  destruct (index data 0) as [b|]; [|by apply Hsame].
  rewrite stateful_bind_lift.
  unfold PMDMeasurement_call. destruct (PMDMeasurement_member b); [|by apply Hsame].
  rewrite stateful_bind_lift.
  destruct (index data 9) as [frame_type|]; [|by apply Hsame].
  rewrite stateful_bind_run.
  destruct (synch_device_time_run now (int_from_bytes (slice data 1 9)) self)
    as (r & -> & _).
  destruct r as [[]|e]; [|by apply Hsame].
  rewrite stateful_bind_lift.
  destruct (NotificationType_call b) as [kind|] eqn:Hkind; [|by apply Hsame].
  assert (b = NotificationType_value kind) as ->.
  { unfold NotificationType_call in Hkind.
    destruct (list_find _ _) as [[i t]|] eqn:Hfind; [|done].
    injection Hkind as ->. by apply list_find_Some in Hfind as (_ & <- & _). }
  rewrite stateful_bind_run. cbn [get_state].
  cbn [_callbacks set_device_time_delta].
  destruct (_callbacks self !! kind) as [cb|] eqn:Hcb; [|by apply Hsame].
  destruct (decode_frame _ _ _) as [n_samples processed| |]; [| |by apply Hsame].
  - rewrite stateful_bind_lift.
    destruct (current_sample_rate _ kind) as [sample_rate|]; [|by apply Hsame].
    rewrite stateful_bind_run. cbn [mret stateful_ret].
    rewrite stateful_bind_run.
    cbn [_p_timestamp set_device_time_delta].
    destruct (_p_timestamp self !! kind) as [p|]; [|by apply Hsame].
    cbn [mret stateful_ret]. rewrite stateful_bind_run.
    destruct sample_rate as [sample_rate|xs].
    + unfold lift at 1.
      destruct (get_timestamps_list _ _ _ _ _) as [time_list|]; [|by apply Hsame].
      cbn. repeat split; try done. right.
      by exists kind, cb, {| time := time_list; processed := processed |}.
    + case_decide; by apply Hsame.
  - rewrite stateful_bind_lift.
    destruct (current_sample_rate _ kind); by apply Hsame.
Qed.

(** X22: a frame of ECG or ACC that arrives when no callback is
    registered for its kind is dropped: the handler returns (for clock
    values in the range of a float), without decoding the samples, and
    changes nothing but the device time delta, which is
    resynchronised. *)
Theorem handle_pmd_data_unregistered (now : Z) (data : bytes)
    (self : PolarH10) (kind : NotificationType) (frame_type : Z) :
  kind = ECG ∨ kind = ACC →
  index data 0 = Ok (NotificationType_value kind) →
  index data 9 = Ok frame_type →
  _callbacks self !! kind = None →
  Z.abs (now - int_from_bytes (slice data 1 9) - _device_time_delta self)
  < float_limit →
  _handle_pmd_data now data self
  = (set_device_time_delta
       (synched_delta now (int_from_bytes (slice data 1 9))
          (_device_time_delta self)) self,
     Ok ()).
Proof.
  intros Hkind H0 H9 Hcb Hnow. unfold _handle_pmd_data.
  rewrite stateful_bind_lift, H0.
  assert (PMDMeasurement_call (NotificationType_value kind)
          = Ok (NotificationType_value kind)) as ->.
  { unfold PMDMeasurement_call.
    destruct Hkind as [-> | ->]; simpl;
      by rewrite ?PMDMeasurement_ECG, ?PMDMeasurement_ACC. }
  rewrite stateful_bind_lift, stateful_bind_lift, H9, stateful_bind_run.
  destruct (synch_device_time_run now (int_from_bytes (slice data 1 9)) self)
    as (r & -> & Hr).
  rewrite (Hr Hnow).
  rewrite stateful_bind_lift, NotificationType_call_value.
  rewrite stateful_bind_run. cbn [get_state _callbacks set_device_time_delta].
  by rewrite Hcb.
Qed.

(** X23: a notification shorter than the ten bytes of the frame header
    makes the handler raise, and leaves the object as it was (the device
    time delta included). *)
Theorem handle_pmd_data_short_frame (now : Z) (data : bytes)
    (self : PolarH10) :
  (length data < 10)%nat →
  ∃ e, _handle_pmd_data now data self = (self, Raise e).
Proof.
  intros Hlen. unfold _handle_pmd_data.
  rewrite stateful_bind_lift.
  destruct (index data 0) as [b|]; [|by eexists].
  rewrite stateful_bind_lift.
  destruct (PMDMeasurement_call b); [|by eexists].
  rewrite stateful_bind_lift. unfold index.
  rewrite (lookup_ge_None_2 data 9) by lia. by eexists.
Qed.

(** X24: a frame of a measurement kind that the device protocol knows
    but [NotificationType] does not list (any value other than 0, 2, 101,
    102 and 201) is not ignored: the handler raises [ValueError], after
    the resynchronisation of the device time delta. *)
Theorem handle_pmd_data_other_measurement (now : Z) (data : bytes)
    (self : PolarH10) (b frame_type : Z) :
  index data 0 = Ok b → PMDMeasurement_member b = true →
  b ∉ [0; 2; 101; 102; 201] →
  index data 9 = Ok frame_type →
  Z.abs (now - int_from_bytes (slice data 1 9) - _device_time_delta self)
  < float_limit →
  _handle_pmd_data now data self
  = (set_device_time_delta
       (synched_delta now (int_from_bytes (slice data 1 9))
          (_device_time_delta self)) self,
     Raise (ValueError "is not a valid NotificationType")).
Proof.
  intros H0 Hmember Hb H9 Hnow. unfold _handle_pmd_data.
  rewrite stateful_bind_lift, H0.
  unfold PMDMeasurement_call. rewrite Hmember.
  rewrite stateful_bind_lift, stateful_bind_lift, H9, stateful_bind_run.
  destruct (synch_device_time_run now (int_from_bytes (slice data 1 9)) self)
    as (r & -> & Hr).
  rewrite (Hr Hnow), stateful_bind_lift.
  assert (NotificationType_call b
          = Raise (ValueError "is not a valid NotificationType")) as ->; [|done].
  unfold NotificationType_call.
  destruct (list_find _ _) as [[i t]|] eqn:Hfind; [|done].
  apply list_find_Some in Hfind as (_ & <- & _).
  destruct Hb. destruct t; simpl; set_solver.
Qed.

End DataHandlerMore.

Lemma handle_pmd_data_unregistered_witness :
  _handle_pmd_data (E:=polar_enums) (5 * 10 ^ 9)
    [0; 0; 0; 0; 0; 0; 0; 0; 0; 1; 1; 0; 0] PolarH10_init
  = (set_device_time_delta (5 * 10 ^ 9) PolarH10_init, Ok ()).
Proof.
  apply (handle_pmd_data_unregistered (E:=polar_enums) (5 * 10 ^ 9)
           [0; 0; 0; 0; 0; 0; 0; 0; 0; 1; 1; 0; 0] PolarH10_init ECG 1).
  - by left.
  - reflexivity.
  - reflexivity.
  - reflexivity.
  - by vm_compute.
Defined.

Lemma handle_pmd_data_short_frame_witness :
  ∃ e, _handle_pmd_data (E:=polar_enums) 0 [0; 1; 2] PolarH10_init
       = (PolarH10_init, Raise e).
Proof.
  apply (handle_pmd_data_short_frame (E:=polar_enums) 0 [0; 1; 2]).
  simpl. lia.
Defined.

Lemma handle_pmd_data_other_measurement_witness :
  _handle_pmd_data (E:=polar_enums) 7
    [1; 0; 0; 0; 0; 0; 0; 0; 0; 0; 1; 0; 0] PolarH10_init
  = (set_device_time_delta 0 PolarH10_init,
     Raise (ValueError "is not a valid NotificationType")).
Proof.
  apply (handle_pmd_data_other_measurement (E:=polar_enums) 7
           [1; 0; 0; 0; 0; 0; 0; 0; 0; 0; 1; 0; 0] PolarH10_init 1 0).
  - reflexivity.
  - reflexivity.
  - compute_done.
  - reflexivity.
  - by vm_compute.
Defined.

(** ** Control-point responses, further *)

Section ResponsesMore.
Context {E : Enums}.

Lemma handle_response_mismatching command measurement_type data t :
  mismatching command measurement_type data →
  handle_response command measurement_type data t = (t, Ok ()).
Proof.
  intros (c & H1 & Hmis). unfold handle_response.
  rewrite stateful_bind_lift, H1.
  destruct (decide (c ≠ PMDCommand_value command)) as [|Hc]; [done|].
  destruct Hmis as [|(m & H2 & Hm)]; [done|].
  rewrite stateful_bind_run, stateful_bind_lift, H2. cbn.
  by rewrite bool_decide_true.
Qed.

(** X25: notifications that echo another command or another measurement
    kind, however many, leave the transaction of a request as it is: a
    request that receives nothing else answers, at the time-out, the
    invalid-state status with no parameters, and a response that follows
    them is handled as if it were the first. *)
Theorem handle_responses_mismatching (command : PMDCommand)
    (measurement_type : Z) (responses : list bytes) (t : transaction) :
  Forall (mismatching command measurement_type) responses →
  handle_responses command measurement_type responses t = t ∧
  request_result (handle_responses command measurement_type responses pending)
  = (PMDStatus_ERROR_INVALID_STATE, []) ∧
  (∀ data, handle_responses command measurement_type (responses ++ [data]) t
           = (handle_response command measurement_type data t).1).
Proof.
  intros Hall.
  assert (∀ t, handle_responses command measurement_type responses t = t)
    as Hsame.
  { unfold handle_responses. induction Hall as [|data rs Hdata _ IH];
      intros t'; [done|].
    cbn [foldl]. by rewrite handle_response_mismatching. }
  split; [done|]. split; [by rewrite Hsame|].
  intros data. unfold handle_responses in *. by rewrite foldl_app, Hsame.
Qed.

Lemma handle_response_event command measurement_type data t :
  let t' := (handle_response command measurement_type data t).1 in
  (response_event t = true → response_event t' = true) ∧
  (PMDStatus_member (response_status t) = true →
   PMDStatus_member (response_status t') = true).
Proof.
  unfold handle_response.
  rewrite stateful_bind_lift.
  destruct (index data 1) as [c|]; [|done].
  case_decide; [done|].
  rewrite stateful_bind_run, stateful_bind_lift.
  destruct (index data 2) as [m|]; [|done]. cbn [mret stateful_ret].
  case_bool_decide; [done|].
  rewrite stateful_bind_lift.
  destruct (index data 3) as [s|]; [|done].
  rewrite stateful_bind_lift. unfold PMDStatus_call.
  destruct (PMDStatus_member s) eqn:Hs; [|done].
  rewrite stateful_bind_run. cbn [update].
  case_decide.
  - rewrite stateful_bind_run, stateful_bind_lift.
    destruct (deserialize_pmd_parameters _); done.
  - done.
Qed.

(** X26: whatever notifications the handler of a request is called with,
    a transaction that was resolved stays resolved, and its status stays
    a defined status. *)
Theorem handle_responses_resolved (command : PMDCommand)
    (measurement_type : Z) (responses : list bytes) (t : transaction) :
  let t' := handle_responses command measurement_type responses t in
  (response_event t = true → response_event t' = true) ∧
  (PMDStatus_member (response_status t) = true →
   PMDStatus_member (response_status t') = true).
Proof.
  cbv zeta. unfold handle_responses. revert t.
  induction responses as [|data rs IH]; intros t; [done|].
  cbn [foldl].
  destruct (handle_response_event command measurement_type data t) as [He Hs].
  destruct (IH (handle_response command measurement_type data t).1)
    as [He' Hs'].
  split; auto.
Qed.

End ResponsesMore.

Lemma handle_responses_mismatching_witness :
  request_result (E:=polar_enums)
    (handle_responses (E:=polar_enums) START_MEASUREMENT 0
       [[240; 1; 0; 0; 0]; [240; 2; 2; 0; 0]] (pending (E:=polar_enums)))
  = (12, []).
Proof.
  apply (handle_responses_mismatching (E:=polar_enums) START_MEASUREMENT 0
           [[240; 1; 0; 0; 0]; [240; 2; 2; 0; 0]] (pending (E:=polar_enums))).
  apply Forall_cons_2; [|apply Forall_cons_2; [|apply Forall_nil_2]].
  - exists 1. split; [reflexivity|]. left. discriminate.
  - exists 2. split; [reflexivity|]. right. exists 2. split; [reflexivity|lia].
Defined.

Lemma handle_responses_resolved_witness :
  response_event
    (handle_responses (E:=polar_enums) START_MEASUREMENT 0
       [[240; 2; 0; 0; 0]; [240; 2; 0; 77]; [1]] (pending (E:=polar_enums)))
  = true.
Proof.
  pose proof (handle_responses_resolved (E:=polar_enums) START_MEASUREMENT 0
                [[240; 2; 0; 77]; [1]]
                {| response_status := 0; response_params := [];
                   response_event := true |}) as [Hevent _].
  apply Hevent. reflexivity.
Defined.
